(** * psiphon: connection registry, HTTP CONNECT handshake and signed
      remote server list fetch

    A shallow embedding of [psiphon/remoteServerList.go] and of the [Conns]
    registry and [HttpProxyConnect] of the same package.  Go values are
    embedded as follows:

    - a Go [string] is a [string] (a sequence of bytes), a [[]byte] is a
      [list Byte.byte], an [int] is a [Z];
    - a function returning [error] returns [option error] ([None] is [nil]),
      a function returning [(T, error)] returns [error + T];
    - a call that has an effect outside the function (a write on a
      connection, a [Close], a notice, a collaborator of the package) appends
      an event to a trace; a run of a function is its trace together with
      its outcome, and the outcome of a run that hits a run-time panic is
      [Panicked];
    - functions of the Go standard library and of other files of the package
      are variables of the section that uses them. *)

From Stdlib Require Import ZArith String Ascii List Lia.
From stdpp Require Import base tactics option list gmap strings.

Local Open Scope Z_scope.
Local Open Scope stdpp_scope.

(** ** Runs: a trace of events and an outcome *)

Module Go.

Inductive outcome (A : Type) : Type :=
| Done (a : A)
| Panicked (why : string).
Arguments Done {A} a.
Arguments Panicked {A} why.

(** A run over events [E] with result [A]. *)
Definition M (E A : Type) : Type := (list E * outcome A)%type.

Definition ret {E A} (a : A) : M E A := ([], Done a).

Definition bind {E A B} (m : M E A) (k : A → M E B) : M E B :=
  match m with
  | (t, Done a) => let '(t', r) := k a in (t ++ t', r)
  | (t, Panicked why) => (t, Panicked why)
  end.

Definition emit {E} (e : E) : M E unit := ([e], Done tt).

Definition panic {E A} (why : string) : M E A := ([], Panicked why).

Definition trace {E A} (m : M E A) : list E := m.1.
Definition result {E A} (m : M E A) : outcome A := m.2.

(** [defer]: [d] runs when the surrounding function leaves, also when it
    leaves by a panic. *)
Definition defer {E A} (d : list E) (body : M E A) : M E A :=
  (body.1 ++ d, body.2).

(** The messages of the two notice severities of the package. *)
Inductive notice : Type :=
| NoticeInfo (msg : string)
| NoticeAlert (msg : string).

#[global] Instance notice_eq_dec : EqDecision notice.
Proof. solve_decision. Defined.

(** Indexing a slice: a run-time panic when the index is out of range. *)
Definition index {E A} (l : list A) (i : nat) : M E A :=
  match l !! i with
  | Some x => ret x
  | None => panic "index out of range"
  end.

(** Reading a field through a pointer: a run-time panic when it is nil. *)
Definition deref {E A} (p : option A) : M E A :=
  match p with
  | Some x => ret x
  | None => panic "invalid memory address or nil pointer dereference"
  end.

(** [[]byte(s)] *)
Definition bytes (s : string) : list Byte.byte := list_byte_of_string s.

#[global] Instance byte_eq_dec : EqDecision Byte.byte := Byte.byte_eq_dec.

(** *** Package [strings] *)

(** [strings.Index(s, sep)], [None] for -1. *)
Fixpoint strings_Index (s sep : string) : option nat :=
  if String.prefix sep s then Some 0%nat
  else match s with
       | EmptyString => None
       | String _ s' => S <$> strings_Index s' sep
       end.

(** The strings without a space. *)
Definition no_space (s : string) : Prop := strings_Index s " " = None.

Fixpoint string_drop (n : nat) (s : string) : string :=
  match n, s with
  | S n', String _ s' => string_drop n' s'
  | _, _ => s
  end.

(** The loop of [genSplit]: at most [k] cuts, the rest of the string is the
    last piece. *)
Fixpoint split_loop (k : nat) (s sep : string) : list string :=
  match k with
  | O => [s]
  | S k' =>
      match strings_Index s sep with
      | None => [s]
      | Some m =>
          substring 0 m s
            :: split_loop k' (string_drop (m + String.length sep) s) sep
      end
  end.

(** The bytes of [s], one string each, the rest of [s] in the [k]-th. *)
Fixpoint explode (k : nat) (s : string) : list string :=
  match k, s with
  | _, EmptyString => []
  | O, _ => [s]
  | S k', String c s' =>
      match s' with
      | EmptyString => [s]
      | _ => String c EmptyString :: explode k' s'
      end
  end.

(** [strings.SplitN(s, sep, n)]: nil for [n = 0], every piece for [n < 0],
    at most [n] pieces for [n > 0].  With an empty separator Go cuts after
    each UTF-8 sequence; [explode] cuts after each byte, which is the same on
    ASCII text. *)
Definition strings_SplitN (s sep : string) (n : Z) : list string :=
  if decide (n = 0) then []
  else if decide (sep = EmptyString) then
    explode (if decide (n < 0) then String.length s else Z.to_nat (n - 1)) s
  else
    split_loop (if decide (n < 0) then String.length s else Z.to_nat (n - 1))
      s sep.

End Go.

(** Runs compose with stdpp's monad notation: [x ← m; k] and [m;; k]. *)
#[global] Instance M_ret {E} : MRet (Go.M E) := λ A, @Go.ret E A.
#[global] Instance M_bind {E} : MBind (Go.M E) := λ A B k m, @Go.bind E A B m k.

(** ** The connection registry [Conns] *)

Module Registry.
Section registry.

(** [net.Conn] values, compared as Go compares map keys, and the [error]
    values their [Close] may return. *)
Context {Conn : Type} `{Countable Conn}.
Context {error : Type}.

(** What [conn.Close()] returns for each connection. *)
Variable conn_Close : Conn → option error.

Inductive event : Type :=
| EvClose (conn : Conn)
| EvNotice (n : Go.notice).

#[global] Instance event_eq_dec : EqDecision event.
Proof. solve_decision. Defined.

(** The struct without its mutex: every method holds the mutex from entry
    to exit, so a method is one atomic transition.  [conns = None] is the
    nil map of the zero value. *)
Record Conns : Type := mkConns {
  isClosed : bool;
  conns : option (gmap Conn bool)
}.

Definition zero : Conns := {| isClosed := false; conns := None |}.

(** The membership: the keys of the map. *)
Definition members (s : Conns) : gset Conn :=
  match conns s with
  | None => ∅
  | Some m => dom m
  end.

Definition Reset (s : Conns) : Conns :=
  {| isClosed := false; conns := Some ∅ |}.

Definition Add (conn : Conn) (s : Conns) : bool * Conns :=
  if isClosed s then (false, s)
  else
    let m := match conns s with
             | None => ∅
             | Some m => m
             end in
    (true, {| isClosed := isClosed s; conns := Some (<[conn := true]> m) |}).

(** [delete] on a nil map does nothing. *)
Definition Remove (conn : Conn) (s : Conns) : Conns :=
  {| isClosed := isClosed s; conns := delete conn <$> conns s |}.

(** [conn.Close()] as a statement: the call is made, its result is
    dropped. *)
Definition call_Close (conn : Conn) : Go.M event (option error) :=
  Go.emit (EvClose conn);; mret (conn_Close conn).

Fixpoint range_Close (ks : list Conn) : Go.M event unit :=
  match ks with
  | [] => mret tt
  | conn :: ks' => _ ← call_Close conn; range_Close ks'
  end.

(** The keys a [range] over the map visits.  Go leaves the order open:
    any permutation [ks] of the keys is a possible order. *)
Definition keys (m : option (gmap Conn bool)) : list Conn :=
  match m with
  | None => []
  | Some m => (map_to_list m).*1
  end.

Definition range_order (m : option (gmap Conn bool)) (ks : list Conn) : Prop :=
  ks ≡ₚ keys m.

(** [CloseAll] when the [range] visits the keys in the order [ks]. *)
Definition CloseAll_along (ks : list Conn) (s : Conns) : Go.M event Conns :=
  let s1 := {| isClosed := true; conns := conns s |} in
  range_Close ks;;
  mret {| isClosed := isClosed s1; conns := Some ∅ |}.

(** [CloseAll] with the keys in the order of [map_to_list]. *)
Definition CloseAll (s : Conns) : Go.M event Conns :=
  CloseAll_along (keys (conns s)) s.

(** How many times [Close] was called on [conn] in a trace. *)
Definition Close_count (conn : Conn) (t : list event) : nat :=
  length (filter (λ e, e = EvClose conn) t).

(** The alerts logged in a trace. *)
Definition alerts (t : list event) : list string :=
  omap (λ e, match e with
             | EvNotice (Go.NoticeAlert msg) => Some msg
             | _ => None
             end) t.

(** *** The registry as a transition system *)

Inductive call : Type :=
| CallReset
| CallAdd (conn : Conn)
| CallRemove (conn : Conn)
| CallCloseAll.

Inductive retval : Type :=
| RetVoid
| RetBool (b : bool).

Inductive step : Conns → call → list event → retval → Conns → Prop :=
| step_Reset s :
    step s CallReset [] RetVoid (Reset s)
| step_Add s conn :
    step s (CallAdd conn) [] (RetBool (Add conn s).1) (Add conn s).2
| step_Remove s conn :
    step s (CallRemove conn) [] RetVoid (Remove conn s)
| step_CloseAll s ks t s' :
    range_order (conns s) ks →
    CloseAll_along ks s = (t, Go.Done s') →
    step s CallCloseAll t RetVoid s'.

(** A history: the calls served one after the other, each with what it
    returned. *)
Inductive steps : Conns → list (call * retval) → list event → Conns → Prop :=
| steps_nil s : steps s [] [] s
| steps_cons s c t r s1 h t' s2 :
    step s c t r s1 → steps s1 h t' s2 →
    steps s ((c, r) :: h) (t ++ t') s2.

End registry.
End Registry.

(** ** The HTTP CONNECT handshake [HttpProxyConnect] *)

Module Proxy.

(** The fields of [http.Response] the handshake reads. *)
Record Response : Type := mkResponse {
  Status : string;
  StatusCode : Z
}.

Definition CRLF : string := String "013" (String "010" EmptyString).

(** [fmt.Sprintf] with the format of the source and its two [%s]. *)
Definition Sprintf_connectRequest (addr hostname : string) : string :=
  "CONNECT " +:+ addr +:+ " HTTP/1.1" +:+ CRLF
  +:+ "Host: " +:+ hostname +:+ CRLF
  +:+ "Connection: Keep-Alive" +:+ CRLF +:+ CRLF.

(** The bytes of the request for an address and its host. *)
Definition request (addr hostname : string) : list Byte.byte :=
  Go.bytes (Sprintf_connectRequest addr hostname).

Section proxy.

Context {error : Type}.

(** [errors.New] and the package's [ContextError]. *)
Variable errors_New : string → error.
Variable ContextError : error → error.

(** [net.SplitHostPort]: the host and the port of an address, or an error. *)
Variable net_SplitHostPort : string → error + string * string.

(** The connection [rawConn] and the proxy behind it: what [Write] returns
    for the bytes it is given, and what [http.ReadResponse] returns on a
    buffered reader of the connection once these bytes have been written. *)
Variable rawConn_Write : list Byte.byte → Z * option error.
Variable http_ReadResponse : list Byte.byte → error + Response.

Inductive event : Type :=
| EvWrite (b : list Byte.byte)
| EvReadResponse
| EvNotice (n : Go.notice).

Definition call_Write (b : list Byte.byte) : Go.M event (Z * option error) :=
  Go.emit (EvWrite b);; mret (rawConn_Write b).

Definition call_ReadResponse (written : list Byte.byte)
  : Go.M event (error + Response) :=
  Go.emit EvReadResponse;; mret (http_ReadResponse written).

Definition HttpProxyConnect (addr : string) : Go.M event (option error) :=
  match net_SplitHostPort addr with
  | inl err => mret (Some (ContextError err))
  | inr (hostname, _) =>
      let connectRequest := Sprintf_connectRequest addr hostname in
      '(_, err) ← call_Write (Go.bytes connectRequest);
      match err with
      | Some err => mret (Some (ContextError err))
      | None =>
          r ← call_ReadResponse (Go.bytes connectRequest);
          match r with
          | inl err => mret (Some (ContextError err))
          | inr response =>
              if decide (StatusCode response ≠ 200) then
                detail ← Go.index (Go.strings_SplitN (Status response) " " 2) 1;
                mret (Some (ContextError (errors_New detail)))
              else mret None
          end
      end
  end.

End proxy.
End Proxy.

(** ** The remote server list: [FetchRemoteServerList] *)

Module Fetch.

(** The JSON record. *)
Record RemoteServerList : Type := mkRemoteServerList {
  Data : string;
  SigningPublicKeyDigest : string;
  Signature : string
}.

(** [crypto.Hash] *)
Inductive crypto_Hash : Type :=
| crypto_MD5
| crypto_SHA1
| crypto_SHA256
| crypto_SHA512.

Section fetch.

Context {error : Type}.
Variable errors_New : string → error.
Variable ContextError : error → error.

(** Types of other files of the package and of the standard library, used
    here only as values passed along. *)
Context {ConnsRef DeviceBinder Dialer Body ServerEntry : Type}.
Context {rsa_PublicKey other_PublicKey : Type}.

(** The dynamic type of the key [x509.ParsePKIXPublicKey] returns: an
    [*rsa.PublicKey] or a key of another algorithm. *)
Inductive PublicKey : Type :=
| RSAKey (k : rsa_PublicKey)
| OtherKey (k : other_PublicKey).

(** The fields of [Config] the fetch reads. *)
Record Config : Type := mkConfig {
  RemoteServerListUrl : string;
  RemoteServerListSignaturePublicKey : string;
  UpstreamHttpProxyAddress : string;
  BindToDeviceProvider : DeviceBinder;
  BindToDeviceDnsServer : string
}.

Record DialConfig : Type := mkDialConfig {
  dc_UpstreamHttpProxyAddress : string;
  dc_ConnectTimeout : Z;
  dc_ReadTimeout : Z;
  dc_WriteTimeout : Z;
  dc_PendingConns : ConnsRef;
  dc_BindToDeviceProvider : DeviceBinder;
  dc_BindToDeviceDnsServer : string
}.

Record http_Transport : Type := mkTransport { Dial : Dialer }.

Record http_Client : Type := mkClient {
  Timeout : Z;
  Transport : http_Transport
}.

(** Standard library: encoding and cryptography. *)
Variable base64_DecodeString : string → error + list Byte.byte.
Variable x509_ParsePKIXPublicKey : list Byte.byte → error + PublicKey.
Variable sha256_Sum : list Byte.byte → list Byte.byte.
Variable rsa_VerifyPKCS1v15 :
  rsa_PublicKey → crypto_Hash → list Byte.byte → list Byte.byte → option error.

(** Standard library: the HTTP client, reading a body, JSON.  Unmarshalling
    into a nil [*RemoteServerList] gives the record, or leaves the pointer
    nil ([None]) as for the JSON value [null]. *)
Variable http_Client_Get : http_Client → string → error + Body.
Variable ioutil_ReadAll : Body → error + list Byte.byte.
Variable json_Unmarshal : list Byte.byte → error + option RemoteServerList.

(** The package: the dialer, the timeout constant and the two
    collaborators that decode and store server entries. *)
Variable NewTCPDialer : DialConfig → Dialer.
Variable FETCH_REMOTE_SERVER_LIST_TIMEOUT : Z.
Variable DecodeAndValidateServerEntryList : string → error + list ServerEntry.
Variable StoreServerEntries : list ServerEntry → bool → option error.

Inductive event : Type :=
| EvNotice (n : Go.notice)
| EvGet (client : http_Client) (url : string)
| EvReadAll (body : Body)
| EvBodyClose (body : Body)
| EvDecode (data : string)
| EvStore (serverEntries : list ServerEntry) (replaceIfExists : bool).

Definition validateRemoteServerList
    (config : Config) (remoteServerList : option RemoteServerList)
  : Go.M event (option error) :=
  match base64_DecodeString (RemoteServerListSignaturePublicKey config) with
  | inl err => mret (Some (ContextError err))
  | inr derEncodedPublicKey =>
      match x509_ParsePKIXPublicKey derEncodedPublicKey with
      | inl err => mret (Some (ContextError err))
      | inr (OtherKey _) =>
          mret (Some (ContextError (errors_New
            "unexpected RemoteServerListSignaturePublicKey key type")))
      | inr (RSAKey rsaPublicKey) =>
          r ← Go.deref remoteServerList;
          match base64_DecodeString (Signature r) with
          | inl err => mret (Some (ContextError err))
          | inr signature =>
              let digest := sha256_Sum (Go.bytes (Data r)) in
              match rsa_VerifyPKCS1v15 rsaPublicKey crypto_SHA256
                      digest signature with
              | Some err => mret (Some (ContextError err))
              | None => mret None
              end
          end
      end
  end.

Definition call_Get (client : http_Client) (url : string)
  : Go.M event (error + Body) :=
  Go.emit (EvGet client url);; mret (http_Client_Get client url).

Definition call_ReadAll (body : Body) : Go.M event (error + list Byte.byte) :=
  Go.emit (EvReadAll body);; mret (ioutil_ReadAll body).

Definition call_Decode (data : string)
  : Go.M event (error + list ServerEntry) :=
  Go.emit (EvDecode data);; mret (DecodeAndValidateServerEntryList data).

Definition call_Store (serverEntries : list ServerEntry) (replace : bool)
  : Go.M event (option error) :=
  Go.emit (EvStore serverEntries replace);;
  mret (StoreServerEntries serverEntries replace).

Definition FetchRemoteServerList (config : Config) (pendingConns : ConnsRef)
  : Go.M event (option error) :=
  Go.emit (EvNotice (Go.NoticeInfo "fetching remote server list"));;
  let dialConfig :=
    {| dc_UpstreamHttpProxyAddress := UpstreamHttpProxyAddress config;
       dc_ConnectTimeout := 0;
       dc_ReadTimeout := 0;
       dc_WriteTimeout := 0;
       dc_PendingConns := pendingConns;
       dc_BindToDeviceProvider := BindToDeviceProvider config;
       dc_BindToDeviceDnsServer := BindToDeviceDnsServer config |} in
  let transport := {| Dial := NewTCPDialer dialConfig |} in
  let httpClient :=
    {| Timeout := FETCH_REMOTE_SERVER_LIST_TIMEOUT; Transport := transport |} in
  response ← call_Get httpClient (RemoteServerListUrl config);
  match response with
  | inl err => mret (Some (ContextError err))
  | inr response =>
      Go.defer [EvBodyClose response] (
        body ← call_ReadAll response;
        match body with
        | inl err => mret (Some (ContextError err))
        | inr body =>
            match json_Unmarshal body with
            | inl err => mret (Some (ContextError err))
            | inr remoteServerList =>
                err ← validateRemoteServerList config remoteServerList;
                match err with
                | Some err => mret (Some (ContextError err))
                | None =>
                    r ← Go.deref remoteServerList;
                    serverEntries ← call_Decode (Data r);
                    match serverEntries with
                    | inl err => mret (Some (ContextError err))
                    | inr serverEntries =>
                        err ← call_Store serverEntries true;
                        match err with
                        | Some err => mret (Some (ContextError err))
                        | None => mret None
                        end
                    end
                end
            end
        end)
  end.

(** The signature of a record verifies: the configured key decodes from
    base64 and parses to an RSA key, the signature decodes from base64 and
    verifies, as PKCS#1 v1.5 with SHA-256, against the SHA-256 digest of the
    bytes of [Data]. *)
Definition signature_verifies (config : Config) (r : RemoteServerList)
  : Prop :=
  ∃ der k signature,
    base64_DecodeString (RemoteServerListSignaturePublicKey config) = inr der
    ∧ x509_ParsePKIXPublicKey der = inr (RSAKey k)
    ∧ base64_DecodeString (Signature r) = inr signature
    ∧ rsa_VerifyPKCS1v15 k crypto_SHA256
        (sha256_Sum (Go.bytes (Data r))) signature = None.

(** The configured key decodes from base64 and parses to an RSA key. *)
Definition key_is_RSA (config : Config) : Prop :=
  ∃ der k,
    base64_DecodeString (RemoteServerListSignaturePublicKey config) = inr der
    ∧ x509_ParsePKIXPublicKey der = inr (RSAKey k).

(** The client [FetchRemoteServerList] builds for a configuration. *)
Definition httpClient_for (config : Config) (pendingConns : ConnsRef)
  : http_Client :=
  let dialConfig :=
    {| dc_UpstreamHttpProxyAddress := UpstreamHttpProxyAddress config;
       dc_ConnectTimeout := 0;
       dc_ReadTimeout := 0;
       dc_WriteTimeout := 0;
       dc_PendingConns := pendingConns;
       dc_BindToDeviceProvider := BindToDeviceProvider config;
       dc_BindToDeviceDnsServer := BindToDeviceDnsServer config |} in
  {| Timeout := FETCH_REMOTE_SERVER_LIST_TIMEOUT;
     Transport := {| Dial := NewTCPDialer dialConfig |} |}.

(** The record a fetch obtains: the response is received, its body is read
    and the body unmarshals to the pointer [p]. *)
Definition fetched (config : Config) (pendingConns : ConnsRef)
    (p : option RemoteServerList) : Prop :=
  ∃ body b,
    http_Client_Get (httpClient_for config pendingConns)
      (RemoteServerListUrl config) = inr body
    ∧ ioutil_ReadAll body = inr b
    ∧ json_Unmarshal b = inr p.

(** A step before the decoding of the entries returns the error [err]: the
    HTTP fetch, the read of the body, the JSON deserialization or the
    validation of the signature. *)
Inductive earlier_step_fails (config : Config) (pendingConns : ConnsRef)
  : error → Prop :=
| fails_Get err :
    http_Client_Get (httpClient_for config pendingConns)
      (RemoteServerListUrl config) = inl err →
    earlier_step_fails config pendingConns err
| fails_ReadAll body err :
    http_Client_Get (httpClient_for config pendingConns)
      (RemoteServerListUrl config) = inr body →
    ioutil_ReadAll body = inl err →
    earlier_step_fails config pendingConns err
| fails_Unmarshal body b err :
    http_Client_Get (httpClient_for config pendingConns)
      (RemoteServerListUrl config) = inr body →
    ioutil_ReadAll body = inr b →
    json_Unmarshal b = inl err →
    earlier_step_fails config pendingConns err
| fails_validate p err :
    fetched config pendingConns p →
    Go.result (validateRemoteServerList config p) = Go.Done (Some err) →
    earlier_step_fails config pendingConns err.

End fetch.
End Fetch.

(** ** The status line as [net/http] reads it

    [http.ReadResponse] belongs to the Go standard library.  [statusLine]
    follows what its current releases do with the first line of a reply: the
    protocol is the text before the first space, [Status] is the rest without
    its leading spaces, and the status code is the text of [Status] before its
    first space, three bytes that [strconv.Atoi] reads as a number that is not
    negative.  Headers and body never change these two fields. *)

Module NetHttp.

Definition digit (c : ascii) : option Z :=
  let n := Z.of_nat (nat_of_ascii c) in
  if decide (48 ≤ n ≤ 57) then Some (n - 48) else None.

Fixpoint digits (acc : Z) (s : string) : option Z :=
  match s with
  | EmptyString => Some acc
  | String c s' => d ← digit c; digits (10 * acc + d) s'
  end.

(** [strconv.Atoi] on a short string: an optional sign, then digits. *)
Definition strconv_Atoi (s : string) : option Z :=
  match s with
  | EmptyString => None
  | String c s' =>
      if decide (c = "-"%char) then
        if decide (s' = EmptyString) then None else Z.opp <$> digits 0 s'
      else if decide (c = "+"%char) then
        if decide (s' = EmptyString) then None else digits 0 s'
      else digits 0 s
  end.

(** [strings.Cut(s, sep)] *)
Definition strings_Cut (s sep : string) : string * string * bool :=
  match Go.strings_Index s sep with
  | Some m => (substring 0 m s, Go.string_drop (m + String.length sep) s, true)
  | None => (s, EmptyString, false)
  end.

(** [strings.TrimLeft(s, " ")] *)
Fixpoint TrimLeft_spaces (s : string) : string :=
  match s with
  | String c s' => if decide (c = " "%char) then TrimLeft_spaces s' else s
  | EmptyString => s
  end.

(** [http.ParseHTTPVersion] *)
Definition ParseHTTPVersion (vers : string) : option (Z * Z) :=
  match vers with
  | String "H" (String "T" (String "T" (String "P" (String "/"
      (String x (String "." (String y EmptyString))))))) =>
      major ← digit x; minor ← digit y; Some (major, minor)
  | _ => None
  end.

Section status_line.

Context {error : Type}.
Variable badStringError : string → string → error.

Definition statusLine (line : string) : error + Proxy.Response :=
  let '(proto, status, ok) := strings_Cut line " " in
  if negb ok then inl (badStringError "malformed HTTP response" line)
  else
    let Status := TrimLeft_spaces status in
    let '(statusCode, _, _) := strings_Cut Status " " in
    if decide (String.length statusCode ≠ 3%nat) then
      inl (badStringError "malformed HTTP status code" statusCode)
    else
      match strconv_Atoi statusCode with
      | None => inl (badStringError "malformed HTTP status code" statusCode)
      | Some code =>
          if decide (code < 0) then
            inl (badStringError "malformed HTTP status code" statusCode)
          else
            match ParseHTTPVersion proto with
            | None => inl (badStringError "malformed HTTP version" proto)
            | Some _ =>
                inr {| Proxy.Status := Status; Proxy.StatusCode := code |}
            end
      end.

End status_line.
End NetHttp.

(** ** Concrete connections, proxies and servers

    Instances of the section variables, used to run the definitions. *)

Module Examples.

(** Errors are their messages; [ContextError] puts the context in front. *)
Definition errors_New (msg : string) : string := msg.
Definition ContextError (err : string) : string := "psiphon: " +:+ err.

(** A registry with the connections 1 and 3; the [Close] of 3 fails. *)
Definition two_conns : @Registry.Conns nat _ _ :=
  {| Registry.isClosed := false;
     Registry.conns := Some (<[3%nat := true]> (<[1%nat := true]> ∅)) |}.

Definition conn_Close (conn : nat) : option string :=
  if decide (conn = 3%nat) then Some "use of closed network connection"
  else None.

(** A resolver that knows one address. *)
Definition net_SplitHostPort (addr : string) : string + string * string :=
  if decide (addr = "example.org:443") then inr ("example.org", "443")
  else inl "missing port in address".

(** A connection whose writes succeed. *)
Definition rawConn_Write (b : list Byte.byte) : Z * option string :=
  (Z.of_nat (length b), None).

Definition badStringError (what val : string) : string :=
  what +:+ " " +:+ val.

(** A proxy that answers every request with the given status line. *)
Definition proxy_replying (line : string) (written : list Byte.byte)
  : string + Proxy.Response :=
  NetHttp.statusLine badStringError line.

(** A proxy whose answer parses to the given response. *)
Definition proxy_response (r : Proxy.Response) (written : list Byte.byte)
  : string + Proxy.Response :=
  inr r.

Definition HttpProxyConnect_via
    (proxy : list Byte.byte → string + Proxy.Response) (addr : string)
  : Go.M Proxy.event (option string) :=
  Proxy.HttpProxyConnect errors_New ContextError net_SplitHostPort
    rawConn_Write proxy addr.

(** A toy signature scheme and a toy server, enough to run the fetch:
    base64 text is the text itself and [!] is not base64; a DER key is
    [rsa:] or [ec:] followed by the key; the digest of a text is the text; a
    signature is the key followed by the digest. *)
Definition base64_DecodeString (s : string) : string + list Byte.byte :=
  if String.prefix "!" s then inl "illegal base64 data at input byte 0"
  else inr (Go.bytes s).

Definition x509_ParsePKIXPublicKey (der : list Byte.byte)
  : string + @Fetch.PublicKey (list Byte.byte) (list Byte.byte) :=
  if decide (take 4 der = Go.bytes "rsa:") then inr (Fetch.RSAKey (drop 4 der))
  else if decide (take 3 der = Go.bytes "ec:") then
    inr (Fetch.OtherKey (drop 3 der))
  else inl "asn1: structure error".

Definition sha256_Sum (b : list Byte.byte) : list Byte.byte := b.

Definition rsa_VerifyPKCS1v15 (k : list Byte.byte) (h : Fetch.crypto_Hash)
    (digest signature : list Byte.byte) : option string :=
  match h with
  | Fetch.crypto_SHA256 =>
      if decide (signature = k ++ digest) then None
      else Some "crypto/rsa: verification error"
  | _ => Some "crypto/rsa: unsupported hash function"
  end.

(** The server answers one URL; a body is its text. *)
Definition http_Client_Get (body : string) (client : @Fetch.http_Client unit)
    (url : string) : string + string :=
  if decide (url = "https://example.org/list") then inr body
  else inl "dial tcp: i/o timeout".

Definition ioutil_ReadAll (body : string) : string + list Byte.byte :=
  inr (Go.bytes body).

Definition signed_list : Fetch.RemoteServerList :=
  {| Fetch.Data := "entries";
     Fetch.SigningPublicKeyDigest := "digest";
     Fetch.Signature := "KEYentries" |}.

Definition forged_list : Fetch.RemoteServerList :=
  {| Fetch.Data := "entriez";
     Fetch.SigningPublicKeyDigest := "digest";
     Fetch.Signature := "KEYentries" |}.

(** Three bodies are JSON: the two records and [null]. *)
Definition json_Unmarshal (b : list Byte.byte)
  : string + option Fetch.RemoteServerList :=
  if decide (b = Go.bytes "signed") then inr (Some signed_list)
  else if decide (b = Go.bytes "forged") then inr (Some forged_list)
  else if decide (b = Go.bytes "null") then inr None
  else inl "invalid character".

Definition DecodeAndValidateServerEntryList (data : string)
  : string + list string :=
  inr [data].

Definition StoreServerEntries (serverEntries : list string) (replace : bool)
  : option string :=
  None.

Definition config (key : string) : @Fetch.Config unit :=
  {| Fetch.RemoteServerListUrl := "https://example.org/list";
     Fetch.RemoteServerListSignaturePublicKey := key;
     Fetch.UpstreamHttpProxyAddress := EmptyString;
     Fetch.BindToDeviceProvider := tt;
     Fetch.BindToDeviceDnsServer := EmptyString |}.

(** The fetch against the server that answers with [body], with the
    configured key [key]. *)
Definition FetchRemoteServerList_from (body key : string)
  : Go.M (@Fetch.event unit string string) (option string) :=
  Fetch.FetchRemoteServerList errors_New ContextError
    base64_DecodeString x509_ParsePKIXPublicKey sha256_Sum rsa_VerifyPKCS1v15
    (http_Client_Get body) ioutil_ReadAll json_Unmarshal (λ _, tt) 30000000000
    DecodeAndValidateServerEntryList StoreServerEntries (config key) tt.

(** The signed list with another digest of the signing key. *)
Definition redigested_list : Fetch.RemoteServerList :=
  {| Fetch.Data := "entries";
     Fetch.SigningPublicKeyDigest := "another digest";
     Fetch.Signature := "KEYentries" |}.

(** The validation with the configured key [key]. *)
Definition validateRemoteServerList_with (key : string)
    (p : option Fetch.RemoteServerList)
  : Go.M (@Fetch.event unit string string) (option string) :=
  Fetch.validateRemoteServerList errors_New ContextError
    base64_DecodeString x509_ParsePKIXPublicKey sha256_Sum rsa_VerifyPKCS1v15
    (config key) p.

(** The events of a trace that hand a payload or entries on. *)
Definition handoffs {Dialer Body ServerEntry}
    (t : list (@Fetch.event Dialer Body ServerEntry))
  : list (@Fetch.event Dialer Body ServerEntry) :=
  omap (λ e, match e with
             | Fetch.EvDecode _ | Fetch.EvStore _ _ => Some e
             | _ => None
             end) t.

End Examples.

(** ** Histories of the registry *)

Module History.
Section history.

Context {Conn : Type} `{Countable Conn}.

(** The entry of a history is an [Add] of [conn] that returned true. *)
Definition is_successful_Add (conn : Conn)
    (cr : @Registry.call Conn * Registry.retval) : bool :=
  match cr with
  | (Registry.CallAdd c, Registry.RetBool true) => bool_decide (c = conn)
  | _ => false
  end.

(** How many times a history registered [conn]. *)
Definition successful_Adds (conn : Conn)
    (h : list (@Registry.call Conn * Registry.retval)) : nat :=
  length (filter (λ cr, is_successful_Add conn cr = true) h).


(** 1 for a member, 0 otherwise. *)
Definition tracked (conn : Conn) (s : @Registry.Conns Conn _ _) : nat :=
  if decide (conn ∈ Registry.members s) then 1%nat else 0%nat.

End history.

Section run.

Context {Conn : Type} `{Countable Conn} {error : Type}.
Variable conn_Close : Conn → option error.

(** Serving one call, [CloseAll] visiting the map in the order of
    [map_to_list]: the trace, what the call returns, the next state. *)
Definition serve (c : @Registry.call Conn) (s : @Registry.Conns Conn _ _)
  : list (@Registry.event Conn) * Registry.retval * Registry.Conns :=
  match c with
  | Registry.CallReset => ([], Registry.RetVoid, Registry.Reset s)
  | Registry.CallAdd conn =>
      ([], Registry.RetBool (Registry.Add conn s).1, (Registry.Add conn s).2)
  | Registry.CallRemove conn => ([], Registry.RetVoid, Registry.Remove conn s)
  | Registry.CallCloseAll =>
      match Registry.CloseAll conn_Close s with
      | (t, Go.Done s') => (t, Registry.RetVoid, s')
      | (t, Go.Panicked _) => (t, Registry.RetVoid, s)
      end
  end.

(** Serving calls one after the other: the history, the trace, the last
    state. *)
Fixpoint run (cs : list (@Registry.call Conn)) (s : @Registry.Conns Conn _ _)
  : list (Registry.call * Registry.retval) * list (@Registry.event Conn)
    * Registry.Conns :=
  match cs with
  | [] => ([], [], s)
  | c :: cs' =>
      let '(t, r, s1) := serve c s in
      let '(h, t', s2) := run cs' s1 in
      ((c, r) :: h, t ++ t', s2)
  end.

End run.
End History.

(** Two sequences of calls on connections 1, 2 and 3: a dial that is
    cancelled, and a dial that is reset. *)
Module Scenarios.

Definition cancelled : list (@Registry.call nat) :=
  [Registry.CallAdd 1%nat; Registry.CallAdd 3%nat; Registry.CallRemove 1%nat;
   Registry.CallCloseAll; Registry.CallAdd 2%nat; Registry.CallCloseAll].


(** A server-entry decoder that rejects every payload. *)
Definition reject_entries (data : string) : string + list string :=
  inl "invalid server entry".

(** The fetch of the signed list when the decoder rejects it. *)
Definition FetchRemoteServerList_rejecting
  : Go.M (@Fetch.event unit string string) (option string) :=
  Fetch.FetchRemoteServerList Examples.errors_New Examples.ContextError
    Examples.base64_DecodeString Examples.x509_ParsePKIXPublicKey
    Examples.sha256_Sum Examples.rsa_VerifyPKCS1v15
    (Examples.http_Client_Get "signed") Examples.ioutil_ReadAll
    Examples.json_Unmarshal (λ _, tt) 30000000000
    reject_entries Examples.StoreServerEntries (Examples.config "rsa:KEY") tt.

(** A relay between connections 1 (local) and 2 (remote) in which the copy
    to the local side fails. *)
Definition Copy_to_local : Z * option string := (10, Some "connection reset").
Definition Copy_to_remote : Z * option string := (5, None).

End Scenarios.

(** ** [Relay]

    The goroutine and the caller each copy one direction and log an alert
    when their copy returns an error; [Relay] returns when both are done.
    What each [io.Copy] returns is a variable, one per direction.  A run of
    [Relay] is a trace in which the events of the two sides keep their order
    and are interleaved in any way. *)

Module Relaying.

(** The interleavings of two traces. *)
Inductive shuffle {A : Type} : list A → list A → list A → Prop :=
| shuffle_nil : shuffle [] [] []
| shuffle_left x l1 l2 l :
    shuffle l1 l2 l → shuffle (x :: l1) l2 (x :: l)
| shuffle_right x l1 l2 l :
    shuffle l1 l2 l → shuffle l1 (x :: l2) (x :: l).

Section relay.

Context {Conn error : Type}.

(** [ContextError], and [err.Error()] as [%s] prints an error. *)
Variable ContextError : error → error.
Variable error_Error : error → string.

(** What [io.Copy(localConn, remoteConn)] returns in the goroutine and
    what [io.Copy(remoteConn, localConn)] returns in the caller. *)
Variable Copy_to_local : Z * option error.
Variable Copy_to_remote : Z * option error.

Inductive event : Type :=
| EvCopy (dst src : Conn)
| EvNotice (n : Go.notice).

(** [NoticeAlert("Relay failed: %s", ContextError(err))] *)
Definition alert_Relay_failed (err : error) : Go.notice :=
  Go.NoticeAlert ("Relay failed: " +:+ error_Error (ContextError err)).

(** One side: the copy, then the alert when the copy returned an error. *)
Definition copy_side (dst src : Conn) (copied : Z * option error)
  : Go.M event unit :=
  '(_, err) ← (Go.emit (EvCopy dst src);; mret copied);
  match err with
  | Some err => Go.emit (EvNotice (alert_Relay_failed err))
  | None => mret tt
  end.

Definition goroutine (localConn remoteConn : Conn) : Go.M event unit :=
  copy_side localConn remoteConn Copy_to_local.

Definition caller (localConn remoteConn : Conn) : Go.M event unit :=
  copy_side remoteConn localConn Copy_to_remote.

(** [t] is the trace of a run of [Relay localConn remoteConn]. *)
Definition Relay (localConn remoteConn : Conn) (t : list event) : Prop :=
  shuffle (Go.trace (goroutine localConn remoteConn))
          (Go.trace (caller localConn remoteConn)) t
  ∧ Go.result (goroutine localConn remoteConn) = Go.Done tt
  ∧ Go.result (caller localConn remoteConn) = Go.Done tt.

(** The alerts and the copies of a trace. *)
Definition alerts (t : list event) : list string :=
  omap (λ e, match e with
             | EvNotice (Go.NoticeAlert msg) => Some msg
             | _ => None
             end) t.

Definition copies (t : list event) : list (Conn * Conn) :=
  omap (λ e, match e with
             | EvCopy dst src => Some (dst, src)
             | _ => None
             end) t.

(** The alert a direction logs for what its copy returned. *)
Definition alert_of (copied : Z * option error) : list string :=
  match copied.2 with
  | Some err => ["Relay failed: " +:+ error_Error (ContextError err)]
  | None => []
  end.

End relay.
End Relaying.

(** * Properties *)

(** ** Runs *)

Lemma bind_Done {E A B} (t : list E) (a : A) (k : A → Go.M E B) :
  Go.bind (t, Go.Done a) k = (t ++ (k a).1, (k a).2).
Proof. unfold Go.bind. by destruct (k a). Qed.

Lemma bind_emit {E B} (e : E) (k : unit → Go.M E B) :
  Go.bind (Go.emit e) k = (e :: (k tt).1, (k tt).2).
Proof. unfold Go.emit. by rewrite bind_Done. Qed.

Lemma bind_ret {E A B} (a : A) (k : A → Go.M E B) :
  Go.bind (Go.ret a) k = k a.
Proof. unfold Go.ret. rewrite bind_Done. by destruct (k a). Qed.

Lemma bind_Panicked {E A B} (t : list E) why (k : A → Go.M E B) :
  Go.bind (t, Go.Panicked why) k = (t, Go.Panicked why).
Proof. done. Qed.

(** ** The registry *)

Section registry_runs.

Context {Conn : Type} `{Countable Conn} {error : Type}.
Variable conn_Close : Conn → option error.

Implicit Types (s : @Registry.Conns Conn _ _) (conn : Conn) (ks : list Conn).

Lemma range_Close_run ks :
  Registry.range_Close conn_Close ks = (Registry.EvClose <$> ks, Go.Done tt).
Proof.
  induction ks as [|conn ks IH]; [done|].
  cbn [Registry.range_Close]. unfold Registry.call_Close, mbind, M_bind, mret, M_ret.
  rewrite bind_emit. unfold Go.ret. cbn [fst snd]. rewrite bind_Done, IH. done.
Qed.

Lemma CloseAll_along_run ks s :
  Registry.CloseAll_along conn_Close ks s
  = (Registry.EvClose <$> ks,
     Go.Done {| Registry.isClosed := true; Registry.conns := Some ∅ |}).
Proof.
  unfold Registry.CloseAll_along, mbind, M_bind, mret, M_ret.
  rewrite range_Close_run, bind_Done. cbn. by rewrite app_nil_r.
Qed.

End registry_runs.

Section registry_facts.

Context {Conn : Type} `{Countable Conn}.

Implicit Types (s : @Registry.Conns Conn _ _) (conn : Conn) (ks : list Conn).

Lemma Close_count_fmap conn ks :
  Registry.Close_count conn (Registry.EvClose <$> ks)
  = length (filter (λ c, c = conn) ks).
Proof.
  unfold Registry.Close_count.
  induction ks as [|c ks IH]; [done|].
  rewrite fmap_cons, !filter_cons.
  destruct (decide (c = conn)) as [->|Hne].
  - rewrite decide_True by done. cbn. by rewrite IH.
  - rewrite decide_False by congruence. done.
Qed.

Lemma count_NoDup conn ks :
  NoDup ks →
  length (filter (λ c, c = conn) ks) = if decide (conn ∈ ks) then 1%nat else 0%nat.
Proof.
  induction 1 as [|c ks Hc Hnd IH]; [done|].
  rewrite filter_cons.
  destruct (decide (c = conn)) as [->|Hne].
  - cbn. rewrite IH, decide_False by done.
    by rewrite decide_True by apply list_elem_of_here.
  - rewrite IH. destruct (decide (conn ∈ ks)) as [Hin|Hin].
    + by rewrite decide_True by by apply list_elem_of_further.
    + rewrite decide_False; [done|].
      rewrite elem_of_cons. intros [->|?]; done.
Qed.

Lemma keys_NoDup m : NoDup (Registry.keys (Conn:=Conn) m).
Proof.
  destruct m as [m|]; cbn; [apply NoDup_fst_map_to_list | constructor].
Qed.

Lemma elem_of_keys conn s :
  conn ∈ Registry.keys (Registry.conns s) ↔ conn ∈ Registry.members s.
Proof.
  unfold Registry.keys, Registry.members.
  destruct (Registry.conns s) as [m|]; [|set_solver].
  rewrite elem_of_dom, list_elem_of_fmap. split.
  - intros [[k v] [-> Hin]]. apply elem_of_map_to_list in Hin. by exists v.
  - intros [v Hv]. exists (conn, v). split; [done|]. by apply elem_of_map_to_list.
Qed.

Lemma range_order_NoDup s ks :
  Registry.range_order (Registry.conns s) ks → NoDup ks.
Proof. intros Hp. unfold Registry.range_order in Hp. rewrite Hp. apply keys_NoDup. Qed.

Lemma range_order_elem_of s ks conn :
  Registry.range_order (Registry.conns s) ks →
  conn ∈ ks ↔ conn ∈ Registry.members s.
Proof.
  intros Hp. unfold Registry.range_order in Hp. rewrite Hp. apply elem_of_keys.
Qed.

Lemma range_order_keys s :
  Registry.range_order (Registry.conns s) (Registry.keys (Registry.conns s)).
Proof. unfold Registry.range_order. reflexivity. Qed.

(** Every visit order closes each member once and nothing else. *)
Lemma Close_count_range s ks conn :
  Registry.range_order (Registry.conns s) ks →
  Registry.Close_count conn (Registry.EvClose <$> ks)
  = if decide (conn ∈ Registry.members s) then 1%nat else 0%nat.
Proof.
  intros Hp. rewrite Close_count_fmap, count_NoDup by by eapply range_order_NoDup.
  destruct (decide (conn ∈ ks)) as [Hin|Hin];
    rewrite (range_order_elem_of s ks conn Hp) in Hin.
  - by rewrite decide_True.
  - by rewrite decide_False.
Qed.

Lemma alerts_fmap_EvClose ks :
  Registry.alerts (Registry.EvClose (Conn:=Conn) <$> ks) = [].
Proof. induction ks; [done|]. cbn. done. Qed.

End registry_facts.

Section registry_claims.

Context {Conn : Type} `{Countable Conn} {error : Type}.
Variable conn_Close : Conn → option error.

Implicit Types (s : @Registry.Conns Conn _ _) (conn : Conn) (ks : list Conn).

Lemma Add_closed s conn :
  Registry.isClosed s = true → Registry.Add conn s = (false, s).
Proof. intros Hc. unfold Registry.Add. by rewrite Hc. Qed.

Lemma Add_open s conn :
  Registry.isClosed s = false →
  (Registry.Add conn s).1 = true
  ∧ Registry.isClosed (Registry.Add conn s).2 = false
  ∧ Registry.members (Registry.Add conn s).2 = {[conn]} ∪ Registry.members s.
Proof.
  intros Hc. unfold Registry.Add. rewrite Hc. cbn. split_and!; [done..|].
  unfold Registry.members. cbn. rewrite dom_insert_L.
  destruct (Registry.conns s); [done|]. by rewrite dom_empty_L.
Qed.

(** A call other than [Reset] leaves a closed registry closed. *)
Lemma step_stays_closed s c t r s' :
  Registry.step conn_Close s c t r s' →
  c ≠ Registry.CallReset →
  Registry.isClosed s = true → Registry.isClosed s' = true.
Proof.
  intros Hstep Hc Hcl. destruct Hstep as [s|s conn|s conn|s ks t s' _ Hrun].
  - done.
  - by rewrite Add_closed.
  - done.
  - rewrite CloseAll_along_run in Hrun. by simplify_eq.
Qed.

Lemma steps_closed_Add_false s h t s' :
  Registry.steps conn_Close s h t s' →
  Registry.isClosed s = true →
  (∀ r, (Registry.CallReset, r) ∉ h) →
  ∀ conn r, (Registry.CallAdd conn, r) ∈ h → r = Registry.RetBool false.
Proof.
  induction 1 as [s|s c t r s1 h t' s2 Hstep Hsteps IH]; intros Hcl Hno conn r0 Hin.
  - by apply elem_of_nil in Hin.
  - apply elem_of_cons in Hin as [Heq|Hin].
    + simplify_eq. inversion Hstep; subst. by rewrite Add_closed.
    + apply (IH) with conn; [|intros r' Hr'; apply (Hno r'); by right|done].
      eapply step_stays_closed; [done| |done].
      intros ->. apply (Hno r). by left.
Qed.

(** C4: whatever the order in which the [range] visits the map, [CloseAll]
    completes, leaves the registry closed, has called [Close] exactly once on
    each connection that was a member when it was called (and on no other),
    and leaves the membership empty; in every history that follows and
    contains no [Reset], every [Add] returns false. *)
Theorem CloseAll_closes_each_member_once s ks :
  Registry.range_order (Registry.conns s) ks →
  ∃ t s',
    Registry.CloseAll_along conn_Close ks s = (t, Go.Done s')
    ∧ Registry.isClosed s' = true
    ∧ (∀ conn, Registry.Close_count conn t
               = if decide (conn ∈ Registry.members s) then 1%nat else 0%nat)
    ∧ Registry.members s' = ∅
    ∧ ∀ h t' s'',
        Registry.steps conn_Close s' h t' s'' →
        (∀ r, (Registry.CallReset, r) ∉ h) →
        ∀ conn r, (Registry.CallAdd conn, r) ∈ h → r = Registry.RetBool false.
Proof.
  intros Hord. eexists _, _. split; [apply CloseAll_along_run|].
  split_and!.
  - done.
  - intros conn. by apply Close_count_range.
  - unfold Registry.members. cbn. apply dom_empty_L.
  - intros h t' s'' Hsteps. by eapply steps_closed_Add_false.
Qed.

(** C5: on an open registry [Add] returns true and the connection is a
    member afterwards (the membership is the old one plus the connection);
    on a closed registry [Add] returns false and leaves the registry, hence
    the membership, as it was. *)
Theorem Add_tracks_unless_closed s conn :
  match Registry.isClosed s with
  | false =>
      (Registry.Add conn s).1 = true
      ∧ conn ∈ Registry.members (Registry.Add conn s).2
      ∧ Registry.members (Registry.Add conn s).2 = {[conn]} ∪ Registry.members s
  | true =>
      (Registry.Add conn s).1 = false
      ∧ (Registry.Add conn s).2 = s
      ∧ Registry.members (Registry.Add conn s).2 = Registry.members s
  end.
Proof.
  destruct (Registry.isClosed s) eqn:Hc.
  - by rewrite Add_closed.
  - destruct (Add_open s conn Hc) as (Hr & _ & Hm). rewrite Hm.
    split_and!; [done| |done]. apply elem_of_union_l. by apply elem_of_singleton.
Qed.

(** C6: from every state [Reset] gives an open registry with an empty
    membership, on which every [Add] returns true; this holds in particular
    for the state any [CloseAll] leaves, which is closed. *)
Theorem Reset_reopens_and_empties s :
  Registry.isClosed (Registry.Reset s) = false
  ∧ Registry.members (Registry.Reset s) = ∅
  ∧ (∀ conn, (Registry.Add conn (Registry.Reset s)).1 = true)
  ∧ ∀ ks,
      match Registry.CloseAll_along conn_Close ks s with
      | (_, Go.Done s') =>
          Registry.isClosed s' = true
          ∧ Registry.isClosed (Registry.Reset s') = false
          ∧ Registry.members (Registry.Reset s') = ∅
          ∧ ∀ conn, (Registry.Add conn s').1 = false
                    ∧ (Registry.Add conn (Registry.Reset s')).1 = true
      | (_, Go.Panicked _) => False
      end.
Proof.
  split_and!; [done | apply dom_empty_L | done |].
  intros ks. rewrite CloseAll_along_run.
  split_and!; [done | done | apply dom_empty_L | done].
Qed.

(** C10 as the code has it: whatever each [Close] returns, [CloseAll]
    completes without a panic and returns nothing, has called [Close] once on
    every member, those after a failed [Close] included, and leaves the
    membership empty; its trace consists of the [Close] calls alone: the
    value a [Close] returns is dropped and no alert is logged. *)
Theorem CloseAll_drops_Close_errors s ks :
  Registry.range_order (Registry.conns s) ks →
  ∃ t s',
    Registry.CloseAll_along conn_Close ks s = (t, Go.Done s')
    ∧ (∀ conn, conn ∈ Registry.members s → Registry.Close_count conn t = 1%nat)
    ∧ Registry.members s' = ∅
    ∧ t = Registry.EvClose <$> ks
    ∧ Registry.alerts t = [].
Proof.
  intros Hord. eexists _, _. split; [apply CloseAll_along_run|].
  split_and!.
  - intros conn Hin. rewrite (Close_count_range s ks conn Hord).
    by rewrite decide_True.
  - apply dom_empty_L.
  - done.
  - apply alerts_fmap_EvClose.
Qed.

End registry_claims.

(** ** Splitting a status at its first space *)

Lemma prefix_space c s :
  String.prefix " " (String c s) = bool_decide (c = " "%char).
Proof.
  change (String.prefix " " (String c s))
    with (if ascii_dec " " c then String.prefix EmptyString s else false).
  destruct (ascii_dec " " c) as [<-|Hne].
  - by destruct s.
  - symmetry. apply bool_decide_eq_false. congruence.
Qed.

Lemma strings_Index_space_cons c s :
  Go.strings_Index (String c s) " "
  = if decide (c = " "%char) then Some 0%nat else S <$> Go.strings_Index s " ".
Proof.
  cbn [Go.strings_Index]. rewrite prefix_space.
  destruct (decide (c = " "%char)).
  - by rewrite bool_decide_eq_true_2.
  - by rewrite bool_decide_eq_false_2.
Qed.

Lemma strings_Index_code code rest :
  Go.no_space code →
  Go.strings_Index (code +:+ " " +:+ rest) " " = Some (String.length code).
Proof.
  unfold Go.no_space. induction code as [|c code IH]; intros Hno.
  - change (EmptyString +:+ " " +:+ rest) with (String " " rest).
    by rewrite strings_Index_space_cons.
  - rewrite strings_Index_space_cons in Hno.
    change (String c code +:+ " " +:+ rest)
      with (String c (code +:+ " " +:+ rest)).
    rewrite strings_Index_space_cons.
    destruct (decide (c = " "%char)); [done|].
    destruct (Go.strings_Index code " ") eqn:Hi; [done|].
    by rewrite IH.
Qed.

Lemma substring_code code rest :
  substring 0 (String.length code) (code +:+ rest) = code.
Proof.
  induction code as [|c code IH]; [by destruct rest|].
  change (substring 0 (String.length (String c code)) (String c code +:+ rest))
    with (String c (substring 0 (String.length code) (code +:+ rest))).
  by rewrite IH.
Qed.

Lemma string_drop_code code rest :
  Go.string_drop (String.length code + 1) (code +:+ " " +:+ rest) = rest.
Proof. induction code as [|c code IH]; [done|]. apply IH. Qed.

(** With two pieces asked for, the split is the cut at the first
    separator, or the whole string when it has none. *)
Lemma SplitN_2 s :
  Go.strings_SplitN s " " 2
  = match Go.strings_Index s " " with
    | Some m => [substring 0 m s; Go.string_drop (m + 1) s]
    | None => [s]
    end.
Proof.
  unfold Go.strings_SplitN.
  rewrite !decide_False by done.
  change (Z.to_nat (2 - 1)) with 1%nat. cbn [Go.split_loop].
  by destruct (Go.strings_Index s " ").
Qed.

Lemma SplitN_code_reason code reason :
  Go.no_space code →
  Go.strings_SplitN (code +:+ " " +:+ reason) " " 2 = [code; reason].
Proof.
  intros Hno. rewrite SplitN_2, strings_Index_code by done.
  by rewrite substring_code, string_drop_code.
Qed.

Lemma SplitN_no_space s :
  Go.no_space s → Go.strings_SplitN s " " 2 = [s].
Proof. intros Hno. rewrite SplitN_2. unfold Go.no_space in Hno. by rewrite Hno. Qed.

(** The second piece exists exactly when the string has a space. *)
Lemma SplitN_2_second s :
  is_Some (Go.strings_SplitN s " " 2 !! 1%nat) ↔ ¬ Go.no_space s.
Proof.
  rewrite SplitN_2. unfold Go.no_space.
  destruct (Go.strings_Index s " "); cbn; split; done.
Qed.

(** ** The handshake *)

Section proxy_facts.

Context {error : Type}.
Variable errors_New : string → error.
Variable ContextError : error → error.
Variable net_SplitHostPort : string → error + string * string.
Variable rawConn_Write : list Byte.byte → Z * option error.
Variable http_ReadResponse : list Byte.byte → error + Proxy.Response.

Local Abbreviation HttpProxyConnect :=
  (Proxy.HttpProxyConnect errors_New ContextError net_SplitHostPort
     rawConn_Write http_ReadResponse).

(** Every run of the handshake, case by case. *)
Lemma HttpProxyConnect_run addr :
  HttpProxyConnect addr
  = match net_SplitHostPort addr with
    | inl err => ([], Go.Done (Some (ContextError err)))
    | inr (hostname, _) =>
        let req := Proxy.request addr hostname in
        match (rawConn_Write req).2 with
        | Some err => ([Proxy.EvWrite req], Go.Done (Some (ContextError err)))
        | None =>
            match http_ReadResponse req with
            | inl err =>
                ([Proxy.EvWrite req; Proxy.EvReadResponse],
                 Go.Done (Some (ContextError err)))
            | inr response =>
                if decide (Proxy.StatusCode response = 200) then
                  ([Proxy.EvWrite req; Proxy.EvReadResponse], Go.Done None)
                else
                  match Go.strings_SplitN (Proxy.Status response) " " 2
                        !! 1%nat with
                  | Some detail =>
                      ([Proxy.EvWrite req; Proxy.EvReadResponse],
                       Go.Done (Some (ContextError (errors_New detail))))
                  | None =>
                      ([Proxy.EvWrite req; Proxy.EvReadResponse],
                       Go.Panicked "index out of range")
                  end
            end
        end
    end.
Proof.
  unfold Proxy.HttpProxyConnect, Proxy.request.
  destruct (net_SplitHostPort addr) as [err|[hostname port]]; [done|].
  unfold Proxy.call_Write, Proxy.call_ReadResponse, mbind, M_bind, mret, M_ret.
  cbn. destruct (rawConn_Write _) as [n [err|]]; cbn; [done|].
  destruct (http_ReadResponse _) as [err|response]; cbn; [done|].
  destruct (decide (Proxy.StatusCode response ≠ 200)) as [Hne|Heq].
  - rewrite decide_False by done. unfold Go.index.
    by destruct (Go.strings_SplitN _ _ _ !! 1%nat).
  - rewrite decide_True; [done|]. by destruct (decide (Proxy.StatusCode response = 200)).
Qed.

(** A status other than 200 whose text is a code, a space and a reason
    phrase: the handshake returns the reason phrase as a contextualized
    error. *)
Lemma HttpProxyConnect_reason addr hostname port response code reason :
  net_SplitHostPort addr = inr (hostname, port) →
  (rawConn_Write (Proxy.request addr hostname)).2 = None →
  http_ReadResponse (Proxy.request addr hostname) = inr response →
  Proxy.StatusCode response ≠ 200 →
  Proxy.Status response = code +:+ " " +:+ reason →
  Go.no_space code →
  HttpProxyConnect addr
  = ([Proxy.EvWrite (Proxy.request addr hostname); Proxy.EvReadResponse],
     Go.Done (Some (ContextError (errors_New reason)))).
Proof.
  intros Ha Hw Hr Hc Hs Hno. rewrite HttpProxyConnect_run, Ha. cbn zeta.
  rewrite Hw, Hr, decide_False by done.
  by rewrite Hs, SplitN_code_reason.
Qed.

(** A status other than 200 whose text has no space: the handshake does
    not return. *)
Lemma HttpProxyConnect_no_reason addr hostname port response :
  net_SplitHostPort addr = inr (hostname, port) →
  (rawConn_Write (Proxy.request addr hostname)).2 = None →
  http_ReadResponse (Proxy.request addr hostname) = inr response →
  Proxy.StatusCode response ≠ 200 →
  Go.no_space (Proxy.Status response) →
  HttpProxyConnect addr
  = ([Proxy.EvWrite (Proxy.request addr hostname); Proxy.EvReadResponse],
     Go.Panicked "index out of range").
Proof.
  intros Ha Hw Hr Hc Hno. rewrite HttpProxyConnect_run, Ha. cbn zeta.
  rewrite Hw, Hr, decide_False by done.
  by rewrite SplitN_no_space.
Qed.

(** What holds of every run: a well-formed address has exactly the request
    written, once and first; the handshake returns nil exactly when a
    response was read and its status code is 200; a malformed address, a
    failed write and a failed read each return the contextualized error. *)
Lemma HttpProxyConnect_request_and_success addr :
  match net_SplitHostPort addr with
  | inl err => HttpProxyConnect addr = ([], Go.Done (Some (ContextError err)))
  | inr (hostname, _) =>
      let req := Proxy.request addr hostname in
      (∃ rest, Go.trace (HttpProxyConnect addr) = Proxy.EvWrite req :: rest
               ∧ ∀ b, Proxy.EvWrite b ∉ rest)
      ∧ (Go.result (HttpProxyConnect addr) = Go.Done None
         ↔ (rawConn_Write req).2 = None
           ∧ ∃ response, http_ReadResponse req = inr response
                         ∧ Proxy.StatusCode response = 200)
      ∧ (∀ err, (rawConn_Write req).2 = Some err →
           HttpProxyConnect addr
           = ([Proxy.EvWrite req], Go.Done (Some (ContextError err))))
      ∧ (∀ err, (rawConn_Write req).2 = None →
           http_ReadResponse req = inl err →
           HttpProxyConnect addr
           = ([Proxy.EvWrite req; Proxy.EvReadResponse],
              Go.Done (Some (ContextError err))))
  end.
Proof.
  rewrite HttpProxyConnect_run.
  destruct (net_SplitHostPort addr) as [err|[hostname port]]; [done|].
  cbn zeta. destruct (rawConn_Write _).2 as [err|] eqn:Hw.
  { split_and!; [|split|intros; by simplify_eq|done].
    - eexists. split; [done|]. intros b Hb. by apply elem_of_nil in Hb.
    - done.
    - by intros [? _]. }
  destruct (http_ReadResponse _) as [err|response] eqn:Hr.
  { split_and!; [|split|done|intros; by simplify_eq].
    - eexists. split; [done|]. intros b Hb.
      apply elem_of_cons in Hb as [?|Hb]; [done|]. by apply elem_of_nil in Hb.
    - done.
    - by intros [_ (? & ? & _)]. }
  assert (∀ b, Proxy.EvWrite b ∉ [@Proxy.EvReadResponse]) as Hnot.
  { intros b Hb. apply elem_of_cons in Hb as [?|Hb]; [done|].
    by apply elem_of_nil in Hb. }
  destruct (decide (Proxy.StatusCode response = 200)) as [H200|H200].
  { split_and!; [by eexists| |done|done].
    split; [|done]. intros _. split; [done|]. by exists response. }
  destruct (Go.strings_SplitN _ _ _ !! 1%nat);
    (split_and!; [by eexists| |done|done]);
    (split; [done|]); intros [_ (r & ? & ?)]; by simplify_eq.
Qed.

End proxy_facts.

(** ** The handshake against concrete proxies *)

(** The two replies of the specification's test: 200 succeeds, and
    [403 Forbidden] fails with the reason phrase as the detail of the error. *)
Lemma HttpProxyConnect_200_Connection_Established :
  Examples.HttpProxyConnect_via
    (Examples.proxy_replying "HTTP/1.1 200 Connection Established")
    "example.org:443"
  = ([Proxy.EvWrite (Proxy.request "example.org:443" "example.org");
      Proxy.EvReadResponse],
     Go.Done None).
Proof. vm_compute. reflexivity. Qed.

Lemma HttpProxyConnect_403_Forbidden :
  Examples.HttpProxyConnect_via
    (Examples.proxy_replying "HTTP/1.1 403 Forbidden") "example.org:443"
  = ([Proxy.EvWrite (Proxy.request "example.org:443" "example.org");
      Proxy.EvReadResponse],
     Go.Done (Some (Examples.ContextError (Examples.errors_New "Forbidden")))).
Proof. vm_compute. reflexivity. Qed.

(** A status line without a reason phrase is a well-formed status line: its
    [Status] is the code alone. *)
Lemma statusLine_without_reason :
  NetHttp.statusLine Examples.badStringError "HTTP/1.1 403"
  = inr {| Proxy.Status := "403"; Proxy.StatusCode := 403 |}.
Proof. vm_compute. reflexivity. Qed.

Lemma HttpProxyConnect_403_without_reason :
  Examples.HttpProxyConnect_via
    (Examples.proxy_replying "HTTP/1.1 403") "example.org:443"
  = ([Proxy.EvWrite (Proxy.request "example.org:443" "example.org");
      Proxy.EvReadResponse],
     Go.Panicked "index out of range").
Proof. vm_compute. reflexivity. Qed.

(** C7 at the response [{Status: "403", StatusCode: 403}]: the address is
    well formed, the request is written and the response is read, the status
    is not 200, and the handshake neither returns nil nor returns an error:
    it stops in a run-time panic. *)
Theorem HttpProxyConnect_non_200_without_error :
  let response := {| Proxy.Status := "403"; Proxy.StatusCode := 403 |} in
  let run :=
    Examples.HttpProxyConnect_via (Examples.proxy_response response)
      "example.org:443" in
  Examples.net_SplitHostPort "example.org:443" = inr ("example.org", "443")
  ∧ Go.trace run
    = [Proxy.EvWrite (Proxy.request "example.org:443" "example.org");
       Proxy.EvReadResponse]
  ∧ Proxy.StatusCode response ≠ 200
  ∧ ∀ err : option string, Go.result run ≠ Go.Done err.
Proof.
  cbn zeta. split_and!; [done| by vm_compute | done |].
  intros err. by vm_compute.
Qed.

(** C8 at the response [{Status: "403", StatusCode: 403}]: the reason
    phrase is empty, and the handshake returns no error at all, so none whose
    detail is the reason phrase. *)
Theorem HttpProxyConnect_no_reason_no_detail :
  let response := {| Proxy.Status := "403"; Proxy.StatusCode := 403 |} in
  let run :=
    Examples.HttpProxyConnect_via (Examples.proxy_response response)
      "example.org:443" in
  Proxy.StatusCode response ≠ 200
  ∧ Go.result run
    ≠ Go.Done (Some (Examples.ContextError (Examples.errors_New EmptyString)))
  ∧ ∀ detail,
      Go.result run
      ≠ Go.Done (Some (Examples.ContextError (Examples.errors_New detail))).
Proof.
  cbn zeta. split_and!; [done | by vm_compute |].
  intros detail. by vm_compute.
Qed.

(** C9 at the response [{Status: "403", StatusCode: 403}]: the split of the
    status at its first space has one component, the access to the component
    of index 1 is out of range, and the handshake panics there. *)
Theorem HttpProxyConnect_index_out_of_range :
  let response := {| Proxy.Status := "403"; Proxy.StatusCode := 403 |} in
  Go.strings_SplitN (Proxy.Status response) " " 2 = ["403"]
  ∧ Go.strings_SplitN (Proxy.Status response) " " 2 !! 1%nat = None
  ∧ Go.result
      (Examples.HttpProxyConnect_via (Examples.proxy_response response)
         "example.org:443")
    = Go.Panicked "index out of range".
Proof. cbn zeta. split_and!; by vm_compute. Qed.

(** ** The remote server list *)

Section fetch_facts.

Context {error : Type}.
Variable errors_New : string → error.
Variable ContextError : error → error.
Context {ConnsRef DeviceBinder Dialer Body ServerEntry : Type}.
Context {rsa_PublicKey other_PublicKey : Type}.
Variable base64_DecodeString : string → error + list Byte.byte.
Variable x509_ParsePKIXPublicKey :
  list Byte.byte → error + @Fetch.PublicKey rsa_PublicKey other_PublicKey.
Variable sha256_Sum : list Byte.byte → list Byte.byte.
Variable rsa_VerifyPKCS1v15 :
  rsa_PublicKey → Fetch.crypto_Hash → list Byte.byte → list Byte.byte →
  option error.
Variable http_Client_Get : @Fetch.http_Client Dialer → string → error + Body.
Variable ioutil_ReadAll : Body → error + list Byte.byte.
Variable json_Unmarshal : list Byte.byte → error + option Fetch.RemoteServerList.
Variable NewTCPDialer : @Fetch.DialConfig ConnsRef DeviceBinder → Dialer.
Variable FETCH_REMOTE_SERVER_LIST_TIMEOUT : Z.
Variable DecodeAndValidateServerEntryList : string → error + list ServerEntry.
Variable StoreServerEntries : list ServerEntry → bool → option error.

Local Abbreviation event := (@Fetch.event Dialer Body ServerEntry).

Local Abbreviation validate :=
  (@Fetch.validateRemoteServerList error errors_New ContextError
     DeviceBinder Dialer Body ServerEntry rsa_PublicKey other_PublicKey
     base64_DecodeString x509_ParsePKIXPublicKey sha256_Sum rsa_VerifyPKCS1v15).

Local Abbreviation Fetch_ :=
  (Fetch.FetchRemoteServerList errors_New ContextError
     base64_DecodeString x509_ParsePKIXPublicKey sha256_Sum rsa_VerifyPKCS1v15
     http_Client_Get ioutil_ReadAll json_Unmarshal NewTCPDialer
     FETCH_REMOTE_SERVER_LIST_TIMEOUT
     DecodeAndValidateServerEntryList StoreServerEntries).

Local Abbreviation client_for :=
  (Fetch.httpClient_for NewTCPDialer FETCH_REMOTE_SERVER_LIST_TIMEOUT).

Local Abbreviation signature_verifies :=
  (Fetch.signature_verifies (DeviceBinder:=DeviceBinder) base64_DecodeString
     x509_ParsePKIXPublicKey sha256_Sum rsa_VerifyPKCS1v15).

Local Abbreviation fetched :=
  (Fetch.fetched http_Client_Get ioutil_ReadAll json_Unmarshal NewTCPDialer
     FETCH_REMOTE_SERVER_LIST_TIMEOUT).

Local Abbreviation earlier_step_fails :=
  (Fetch.earlier_step_fails (ServerEntry:=ServerEntry) errors_New ContextError
     base64_DecodeString x509_ParsePKIXPublicKey sha256_Sum rsa_VerifyPKCS1v15
     http_Client_Get ioutil_ReadAll json_Unmarshal NewTCPDialer
     FETCH_REMOTE_SERVER_LIST_TIMEOUT).

Implicit Types (config : @Fetch.Config DeviceBinder)
  (r : Fetch.RemoteServerList) (p : option Fetch.RemoteServerList).

(** Validation has no effect of its own. *)
Lemma validate_trace config p : Go.trace (validate config p) = [].
Proof.
  unfold Fetch.validateRemoteServerList.
  destruct (base64_DecodeString _) as [?|der]; [done|].
  destruct (x509_ParsePKIXPublicKey der) as [?|[k|k]]; [done| |done].
  destruct p as [r|]; [|done].
  unfold mbind, M_bind, Go.deref. rewrite bind_ret.
  destruct (base64_DecodeString _) as [?|signature]; [done|].
  by destruct (rsa_VerifyPKCS1v15 _ _ _ _).
Qed.

Lemma validate_run config p :
  validate config p = ([], Go.result (validate config p)).
Proof.
  rewrite <- (validate_trace config p). by destruct (validate config p).
Qed.

(** On a record, validation returns: it never panics. *)
Lemma validate_Some_returns config r :
  ∃ err, validate config (Some r) = ([], Go.Done err).
Proof.
  unfold Fetch.validateRemoteServerList.
  destruct (base64_DecodeString _) as [?|der]; [by eexists|].
  destruct (x509_ParsePKIXPublicKey der) as [?|[k|k]]; [by eexists| |by eexists].
  unfold mbind, M_bind, Go.deref. rewrite bind_ret.
  destruct (base64_DecodeString _) as [?|signature]; [by eexists|].
  destruct (rsa_VerifyPKCS1v15 _ _ _ _); by eexists.
Qed.

(** On a nil pointer, validation does not succeed: it returns the error of
    the key, or panics when it reads the signature. *)
Lemma validate_nil config :
  Go.result (validate config None) ≠ Go.Done None.
Proof.
  unfold Fetch.validateRemoteServerList.
  destruct (base64_DecodeString _) as [?|der]; [done|].
  by destruct (x509_ParsePKIXPublicKey der) as [?|[k|k]].
Qed.

Lemma validate_succeeds_iff config r :
  validate config (Some r) = ([], Go.Done None) ↔ signature_verifies config r.
Proof.
  unfold Fetch.validateRemoteServerList, Fetch.signature_verifies.
  destruct (base64_DecodeString
              (Fetch.RemoteServerListSignaturePublicKey config)) as [e|der].
  { split; [done|]. by intros (? & ? & ? & ? & _). }
  destruct (x509_ParsePKIXPublicKey der) as [e|[k|k]] eqn:Hk.
  - split; [done|]. intros (der' & k' & ? & Hd & Hk' & _). congruence.
  - unfold mbind, M_bind, Go.deref. rewrite bind_ret.
    destruct (base64_DecodeString (Fetch.Signature r)) as [e|signature].
    { split; [done|]. by intros (? & ? & ? & _ & _ & ? & _). }
    destruct (rsa_VerifyPKCS1v15 k _ _ signature) as [e|] eqn:Hv.
    + split; [done|]. intros (der' & k' & s' & Hd & Hk' & Hs & Hv'). congruence.
    + split; [|done]. intros _. by exists der, k, signature.
  - split; [done|]. intros (der' & k' & ? & Hd & Hk' & _). congruence.
Qed.

(** Running a function on known results of its calls. *)
Ltac run_known :=
  repeat first
    [ progress cbn
    | match goal with H : _ = _ |- _ => progress rewrite H end ].

(** Every run of the fetch, case by case. *)
Lemma FetchRemoteServerList_run config pendingConns :
  Fetch_ config pendingConns
  = let client := client_for config pendingConns in
    let t0 : list event :=
      [Fetch.EvNotice (Go.NoticeInfo "fetching remote server list");
       Fetch.EvGet client (Fetch.RemoteServerListUrl config)] in
    match http_Client_Get client (Fetch.RemoteServerListUrl config) with
    | inl err => (t0, Go.Done (Some (ContextError err)))
    | inr body =>
        let t1 := t0 ++ [Fetch.EvReadAll body] in
        let close := [@Fetch.EvBodyClose Dialer Body ServerEntry body] in
        match ioutil_ReadAll body with
        | inl err => (t1 ++ close, Go.Done (Some (ContextError err)))
        | inr b =>
            match json_Unmarshal b with
            | inl err => (t1 ++ close, Go.Done (Some (ContextError err)))
            | inr p =>
                match Go.result (validate config p), p with
                | Go.Panicked why, _ => (t1 ++ close, Go.Panicked why)
                | Go.Done (Some err), _ =>
                    (t1 ++ close, Go.Done (Some (ContextError err)))
                | Go.Done None, None =>
                    (t1 ++ close,
                     Go.Panicked
                       "invalid memory address or nil pointer dereference")
                | Go.Done None, Some r =>
                    let t2 := t1 ++ [Fetch.EvDecode (Fetch.Data r)] in
                    match DecodeAndValidateServerEntryList (Fetch.Data r) with
                    | inl err =>
                        (t2 ++ close, Go.Done (Some (ContextError err)))
                    | inr serverEntries =>
                        (t2 ++ [Fetch.EvStore serverEntries true] ++ close,
                         match StoreServerEntries serverEntries true with
                         | Some err => Go.Done (Some (ContextError err))
                         | None => Go.Done None
                         end)
                    end
                end
            end
        end
    end.
Proof.
  unfold Fetch.FetchRemoteServerList, Fetch.httpClient_for.
  unfold Fetch.call_Get, Fetch.call_ReadAll, Fetch.call_Decode,
    Fetch.call_Store, mbind, M_bind, mret, M_ret.
  cbn zeta.
  destruct (http_Client_Get _ _) as [err|body]; [reflexivity|].
  destruct (ioutil_ReadAll body) as [err|b] eqn:Hb; [by run_known|].
  destruct (json_Unmarshal b) as [err|p] eqn:Hp; [by run_known|].
  pose proof (validate_run config p) as Hv.
  destruct (Go.result (validate config p)) as [[err|]|why];
    [by run_known| |by run_known].
  destruct p as [r|]; [|by run_known].
  destruct (DecodeAndValidateServerEntryList _) as [err|serverEntries] eqn:Hd;
    [by run_known|].
  destruct (StoreServerEntries serverEntries true) eqn:Hs;
    by run_known.
Qed.

(** Membership in a trace that is written out. *)
Ltac walk H :=
  cbn in H;
  repeat (apply elem_of_cons in H as [H|H]; [try discriminate H|]);
  try (by apply elem_of_nil in H).

(** Which step failed, read off the results of the calls. *)
Lemma earlier_step_fails_inv config pendingConns err :
  earlier_step_fails config pendingConns err →
  match http_Client_Get (client_for config pendingConns)
          (Fetch.RemoteServerListUrl config) with
  | inl e => err = e
  | inr body =>
      match ioutil_ReadAll body with
      | inl e => err = e
      | inr b =>
          match json_Unmarshal b with
          | inl e => err = e
          | inr p => Go.result (validate config p) = Go.Done (Some err)
          end
      end
  end.
Proof.
  intros [e Hg|body e Hg Hb|body b e Hg Hb Hp|p e (body & b & Hg & Hb & Hp) Hv].
  - by rewrite Hg.
  - by rewrite Hg, Hb.
  - by rewrite Hg, Hb, Hp.
  - by rewrite Hg, Hb, Hp.
Qed.

(** In every run of the fetch, a payload reaches
    [DecodeAndValidateServerEntryList] only when it is the [Data] of the
    record that was fetched and [validateRemoteServerList] returned nil for
    that record; entries reach [StoreServerEntries] only after that, when the
    decoding of that payload returned them, with the replace flag set, and
    the store follows the decoding in the trace.  When the HTTP fetch, the
    read of the body, the JSON deserialization or the validation returns an
    error, the fetch returns that error contextualized and neither
    collaborator is called.  A validation that panics returns no error and
    is no case of the last part. *)
Theorem FetchRemoteServerList_validates_before_use config pendingConns :
  let run := Fetch_ config pendingConns in
  (∀ data, Fetch.EvDecode data ∈ Go.trace run →
     ∃ r, fetched config pendingConns (Some r)
          ∧ validate config (Some r) = ([], Go.Done None)
          ∧ data = Fetch.Data r)
  ∧ (∀ serverEntries replace,
       Fetch.EvStore serverEntries replace ∈ Go.trace run →
       ∃ r, fetched config pendingConns (Some r)
            ∧ validate config (Some r) = ([], Go.Done None)
            ∧ DecodeAndValidateServerEntryList (Fetch.Data r)
              = inr serverEntries
            ∧ replace = true
            ∧ ∃ t t', Go.trace run
                      = t ++ Fetch.EvDecode (Fetch.Data r)
                          :: Fetch.EvStore serverEntries replace :: t')
  ∧ (∀ err, earlier_step_fails config pendingConns err →
       Go.result run = Go.Done (Some (ContextError err))
       ∧ (∀ data, Fetch.EvDecode data ∉ Go.trace run)
       ∧ (∀ serverEntries replace,
            Fetch.EvStore serverEntries replace ∉ Go.trace run)).
Proof.
  cbn zeta. rewrite FetchRemoteServerList_run. cbn zeta.
  assert (∀ err, earlier_step_fails config pendingConns err → _) as Hinv
    by exact (earlier_step_fails_inv config pendingConns).
  unfold Fetch.fetched.
  destruct (http_Client_Get _ _) as [e|body] eqn:Hg.
  { split_and!; [intros data Hin; walk Hin | intros es f Hin; walk Hin |].
    intros err ->%Hinv.
    split_and!; [done | intros data Hin; walk Hin | intros es f Hin; walk Hin]. }
  destruct (ioutil_ReadAll body) as [e|b] eqn:Hb.
  { split_and!; [intros data Hin; walk Hin | intros es f Hin; walk Hin |].
    intros err ->%Hinv.
    split_and!; [done | intros data Hin; walk Hin | intros es f Hin; walk Hin]. }
  destruct (json_Unmarshal b) as [e|p] eqn:Hp.
  { split_and!; [intros data Hin; walk Hin | intros es f Hin; walk Hin |].
    intros err ->%Hinv.
    split_and!; [done | intros data Hin; walk Hin | intros es f Hin; walk Hin]. }
  pose proof (validate_run config p) as Hrun.
  destruct (Go.result (validate config p)) as [[e|]|why] eqn:Hv.
  - split_and!; [intros data Hin; walk Hin | intros es f Hin; walk Hin |].
    intros err Hf%Hinv. simplify_eq.
    split_and!; [done | intros data Hin; walk Hin | intros es f Hin; walk Hin].
  - destruct p as [r|]; [|by destruct (validate_nil config)].
    destruct (DecodeAndValidateServerEntryList (Fetch.Data r))
      as [e|serverEntries] eqn:Hd.
    + split_and!; [|intros es f Hin; walk Hin|by intros err Hf%Hinv].
      intros data Hin. walk Hin. simplify_eq.
      exists r. split_and!; [by exists body, b|done..].
    + split_and!; [| |by intros err Hf%Hinv].
      * intros data Hin. walk Hin. simplify_eq.
        exists r. split_and!; [by exists body, b|done..].
      * intros es f Hin. walk Hin. simplify_eq.
        exists r. split_and!; [by exists body, b|done..|].
        by eexists [_; _; _], [_].
  - split_and!; [intros data Hin; walk Hin | intros es f Hin; walk Hin |].
    by intros err Hf%Hinv.
Qed.

(** C2: on a record, [validateRemoteServerList] returns nil exactly when the
    configured key decodes from base64 and parses as a PKIX public key that
    is an RSA key, the signature of the record decodes from base64, and the
    PKCS#1 v1.5 verification of the decoded signature against the SHA-256
    digest of the bytes of [Data] succeeds; otherwise it returns a
    contextualized error, which for a key of another type is the error
    [unexpected RemoteServerListSignaturePublicKey key type]. *)
Theorem validateRemoteServerList_succeeds_iff_signature_verifies config r :
  (validate config (Some r) = ([], Go.Done None)
   ↔ ∃ der k signature,
       base64_DecodeString (Fetch.RemoteServerListSignaturePublicKey config)
         = inr der
       ∧ x509_ParsePKIXPublicKey der = inr (Fetch.RSAKey k)
       ∧ base64_DecodeString (Fetch.Signature r) = inr signature
       ∧ rsa_VerifyPKCS1v15 k Fetch.crypto_SHA256
           (sha256_Sum (Go.bytes (Fetch.Data r))) signature = None)
  ∧ (validate config (Some r) = ([], Go.Done None)
     ∨ ∃ err, validate config (Some r)
              = ([], Go.Done (Some (ContextError err))))
  ∧ (∀ der k,
       base64_DecodeString (Fetch.RemoteServerListSignaturePublicKey config)
         = inr der →
       x509_ParsePKIXPublicKey der = inr (Fetch.OtherKey k) →
       validate config (Some r)
       = ([], Go.Done (Some (ContextError (errors_New
            "unexpected RemoteServerListSignaturePublicKey key type"))))).
Proof.
  split_and!.
  - apply validate_succeeds_iff.
  - unfold Fetch.validateRemoteServerList.
    destruct (base64_DecodeString _) as [?|der]; [right; by eexists|].
    destruct (x509_ParsePKIXPublicKey der) as [?|[k|k]];
      [right; by eexists| |right; by eexists].
    unfold mbind, M_bind, Go.deref. rewrite bind_ret.
    destruct (base64_DecodeString _) as [?|signature]; [right; by eexists|].
    destruct (rsa_VerifyPKCS1v15 _ _ _ _); [right; by eexists|by left].
  - intros der k Hd Hk. unfold Fetch.validateRemoteServerList.
    by rewrite Hd, Hk.
Qed.

(** C3: two records that differ at most in their
    [SigningPublicKeyDigest] fields get the same result from
    [validateRemoteServerList], for every configuration: the field is not
    read. *)
Theorem validateRemoteServerList_ignores_key_digest config r1 r2 :
  Fetch.Data r1 = Fetch.Data r2 →
  Fetch.Signature r1 = Fetch.Signature r2 →
  validate config (Some r1) = validate config (Some r2).
Proof.
  destruct r1 as [data1 digest1 signature1], r2 as [data2 digest2 signature2].
  cbn. intros -> ->. unfold Fetch.validateRemoteServerList.
  destruct (base64_DecodeString _) as [?|der]; [done|].
  destruct (x509_ParsePKIXPublicKey der) as [?|[k|k]]; done.
Qed.

End fetch_facts.

(** ** The fetch against concrete servers *)

(** A list signed with the configured key is decoded and stored. *)
Lemma FetchRemoteServerList_signed :
  let run := Examples.FetchRemoteServerList_from "signed" "rsa:KEY" in
  Go.result run = Go.Done None
  ∧ Examples.handoffs (Go.trace run)
    = [Fetch.EvDecode "entries"; Fetch.EvStore ["entries"] true].
Proof. cbn zeta. split; by vm_compute. Qed.

(** A changed payload, and a key that is not an RSA key: an error, and
    nothing is handed on. *)
Lemma FetchRemoteServerList_forged :
  let run := Examples.FetchRemoteServerList_from "forged" "rsa:KEY" in
  Go.result run
  = Go.Done (Some (Examples.ContextError (Examples.ContextError
                     "crypto/rsa: verification error")))
  ∧ Examples.handoffs (Go.trace run) = [].
Proof. cbn zeta. split; by vm_compute. Qed.

Lemma FetchRemoteServerList_key_not_RSA :
  let run := Examples.FetchRemoteServerList_from "signed" "ec:KEY" in
  Go.result run
  = Go.Done (Some (Examples.ContextError (Examples.ContextError
       "unexpected RemoteServerListSignaturePublicKey key type")))
  ∧ Examples.handoffs (Go.trace run) = [].
Proof. cbn zeta. split; by vm_compute. Qed.

(** The body [null] unmarshals to a nil pointer without an error: the
    validation panics when it reads the signature, and nothing is handed
    on. *)
Lemma FetchRemoteServerList_null :
  let run := Examples.FetchRemoteServerList_from "null" "rsa:KEY" in
  Go.result run
  = Go.Panicked "invalid memory address or nil pointer dereference"
  ∧ Examples.handoffs (Go.trace run) = [].
Proof. cbn zeta. split; by vm_compute. Qed.

(** ** The registry on two connections *)

Lemma two_conns_members :
  Registry.members Examples.two_conns = {[1%nat; 3%nat]}.
Proof.
  unfold Registry.members, Examples.two_conns. cbn.
  rewrite !dom_insert_L, dom_empty_L, (right_id_L ∅ (∪)).
  apply (comm_L (∪)).
Qed.

Lemma two_conns_range_order :
  Registry.range_order (Registry.conns Examples.two_conns) [1%nat; 3%nat].
Proof. unfold Registry.range_order. vm_compute. apply perm_swap. Qed.

(** C4 on the registry of the connections 1 and 3, visited in the order 1,
    3: both are closed once, connection 2 is not closed, the registry is
    left closed and empty, and an [Add] that follows returns false. *)
Lemma CloseAll_closes_each_member_once_witness :
  Registry.range_order (Registry.conns Examples.two_conns) [1%nat; 3%nat]
  ∧ ∃ t s',
      Registry.CloseAll_along Examples.conn_Close [1%nat; 3%nat]
        Examples.two_conns = (t, Go.Done s')
      ∧ Registry.isClosed s' = true
      ∧ Registry.Close_count 1%nat t = 1%nat
      ∧ Registry.Close_count 3%nat t = 1%nat
      ∧ Registry.Close_count 2%nat t = 0%nat
      ∧ Registry.members s' = ∅
      ∧ (Registry.Add 2%nat s').1 = false.
Proof.
  split; [exact two_conns_range_order|].
  destruct (CloseAll_closes_each_member_once Examples.conn_Close
              Examples.two_conns [1%nat; 3%nat] two_conns_range_order)
    as (t & s' & Hrun & Hcl & Hcount & Hm & Hadd).
  exists t, s'. split_and!; [done..| | | |done|].
  - rewrite Hcount, decide_True; [done|].
    rewrite two_conns_members. set_solver.
  - rewrite Hcount, decide_True; [done|].
    rewrite two_conns_members. set_solver.
  - rewrite Hcount, decide_False; [done|].
    rewrite two_conns_members.
    intros [?%elem_of_singleton|?%elem_of_singleton]%elem_of_union; lia.
  - assert (Registry.RetBool (Registry.Add 2%nat s').1 = Registry.RetBool false)
      as Heq; [|by simplify_eq].
    apply (Hadd [(Registry.CallAdd 2%nat, Registry.RetBool (Registry.Add 2%nat s').1)]
             [] (Registry.Add 2%nat s').2) with 2%nat.
    + apply (Registry.steps_cons _ s' (Registry.CallAdd 2%nat) []
               _ (Registry.Add 2%nat s').2 [] [] _).
      * apply Registry.step_Add.
      * apply Registry.steps_nil.
    + intros r Hin. apply list_elem_of_singleton in Hin. discriminate Hin.
    + apply list_elem_of_here.
Defined.

(** C10 on the same registry, where the [Close] of connection 3 fails:
    connection 1, visited after it, is closed all the same, the membership
    is emptied, and the trace holds the two [Close] calls and no alert. *)
Lemma CloseAll_drops_Close_errors_witness :
  Registry.range_order (Registry.conns Examples.two_conns) [3%nat; 1%nat]
  ∧ Examples.conn_Close 3%nat = Some "use of closed network connection"
  ∧ ∃ t s',
      Registry.CloseAll_along Examples.conn_Close [3%nat; 1%nat]
        Examples.two_conns = (t, Go.Done s')
      ∧ Registry.Close_count 1%nat t = 1%nat
      ∧ Registry.members s' = ∅
      ∧ t = [Registry.EvClose 3%nat; Registry.EvClose 1%nat]
      ∧ Registry.alerts t = [].
Proof.
  assert (Registry.range_order (Registry.conns Examples.two_conns)
            [3%nat; 1%nat]) as Hord.
  { unfold Registry.range_order. by vm_compute. }
  split_and!; [done..|].
  destruct (CloseAll_drops_Close_errors Examples.conn_Close
              Examples.two_conns [3%nat; 1%nat] Hord)
    as (t & s' & Hrun & Hcount & Hm & Ht & Ha).
  exists t, s'. split_and!; [done| |done..].
  apply Hcount. rewrite two_conns_members. set_solver.
Defined.

(** C10 as the specification states it fails: the [Close] of connection 3,
    a member, returns an error, [CloseAll] calls it once, and the trace of
    [CloseAll] holds no alert. *)
Lemma CloseAll_failed_Close_not_logged :
  let run := Registry.CloseAll Examples.conn_Close Examples.two_conns in
  3%nat ∈ Registry.members Examples.two_conns
  ∧ Examples.conn_Close 3%nat = Some "use of closed network connection"
  ∧ Registry.Close_count 3%nat (Go.trace run) = 1%nat
  ∧ Registry.alerts (Go.trace run) = []
  ∧ Go.trace run = [Registry.EvClose 3%nat; Registry.EvClose 1%nat].
Proof.
  cbn zeta. split_and!; [|by vm_compute..].
  rewrite two_conns_members. set_solver.
Qed.

(** ** The handshake on the two shapes of a status other than 200 *)

Lemma HttpProxyConnect_reason_witness :
  let response :=
    {| Proxy.Status := "403 Forbidden"; Proxy.StatusCode := 403 |} in
  Examples.net_SplitHostPort "example.org:443" = inr ("example.org", "443")
  ∧ Proxy.StatusCode response ≠ 200
  ∧ Proxy.Status response = "403" +:+ " " +:+ "Forbidden"
  ∧ Go.no_space "403"
  ∧ Examples.HttpProxyConnect_via (Examples.proxy_response response)
      "example.org:443"
    = ([Proxy.EvWrite (Proxy.request "example.org:443" "example.org");
        Proxy.EvReadResponse],
       Go.Done (Some (Examples.ContextError
                        (Examples.errors_New "Forbidden")))).
Proof.
  cbn zeta. split_and!; [done | done | done | by vm_compute |].
  apply (HttpProxyConnect_reason Examples.errors_New Examples.ContextError
           Examples.net_SplitHostPort Examples.rawConn_Write
           (Examples.proxy_response
              {| Proxy.Status := "403 Forbidden"; Proxy.StatusCode := 403 |})
           "example.org:443" "example.org" "443"
           {| Proxy.Status := "403 Forbidden"; Proxy.StatusCode := 403 |}
           "403" "Forbidden");
    [done | done | done | done | done | by vm_compute].
Defined.

Lemma HttpProxyConnect_no_reason_witness :
  let response := {| Proxy.Status := "403"; Proxy.StatusCode := 403 |} in
  Examples.net_SplitHostPort "example.org:443" = inr ("example.org", "443")
  ∧ Proxy.StatusCode response ≠ 200
  ∧ Go.no_space (Proxy.Status response)
  ∧ Examples.HttpProxyConnect_via (Examples.proxy_response response)
      "example.org:443"
    = ([Proxy.EvWrite (Proxy.request "example.org:443" "example.org");
        Proxy.EvReadResponse],
       Go.Panicked "index out of range").
Proof.
  cbn zeta. split_and!; [done | done | by vm_compute |].
  apply (HttpProxyConnect_no_reason Examples.errors_New Examples.ContextError
           Examples.net_SplitHostPort Examples.rawConn_Write
           (Examples.proxy_response
              {| Proxy.Status := "403"; Proxy.StatusCode := 403 |})
           "example.org:443" "example.org" "443"
           {| Proxy.Status := "403"; Proxy.StatusCode := 403 |});
    [done | done | done | done | by vm_compute].
Defined.

(** C3 on the signed list and the same list with another digest: both are
    accepted under the key that signed them. *)
Lemma validateRemoteServerList_ignores_key_digest_witness :
  Fetch.Data Examples.signed_list = Fetch.Data Examples.redigested_list
  ∧ Fetch.Signature Examples.signed_list
    = Fetch.Signature Examples.redigested_list
  ∧ Fetch.SigningPublicKeyDigest Examples.signed_list
    ≠ Fetch.SigningPublicKeyDigest Examples.redigested_list
  ∧ Examples.validateRemoteServerList_with "rsa:KEY"
      (Some Examples.signed_list)
    = Examples.validateRemoteServerList_with "rsa:KEY"
        (Some Examples.redigested_list)
  ∧ Examples.validateRemoteServerList_with "rsa:KEY"
      (Some Examples.redigested_list) = ([], Go.Done None).
Proof.
  split_and!; [done | done | done | | by vm_compute].
  apply (validateRemoteServerList_ignores_key_digest Examples.errors_New
           Examples.ContextError Examples.base64_DecodeString
           Examples.x509_ParsePKIXPublicKey Examples.sha256_Sum
           Examples.rsa_VerifyPKCS1v15 (Examples.config "rsa:KEY")
           Examples.signed_list Examples.redigested_list);
    reflexivity.
Defined.

(** * Further properties *)

(** ** The registry: [Remove], and how the methods compose *)

Section registry_more.

Context {Conn : Type} `{Countable Conn}.

Implicit Types (s : @Registry.Conns Conn _ _) (conn : Conn).

Lemma Remove_members s conn :
  Registry.members (Registry.Remove conn s) = Registry.members s ∖ {[conn]}.
Proof.
  unfold Registry.members, Registry.Remove. cbn.
  destruct (Registry.conns s) as [m|]; cbn.
  - apply dom_delete_L.
  - apply set_eq. intros x. rewrite elem_of_difference.
    split; [by intros ?%not_elem_of_empty | by intros [?%not_elem_of_empty _]].
Qed.

Lemma not_member_lookup s conn m :
  Registry.conns s = Some m → conn ∉ Registry.members s → m !! conn = None.
Proof.
  unfold Registry.members. intros ->. by intros ?%not_elem_of_dom.
Qed.

(** [Remove] takes the connection, and only it, out of the membership and
    leaves the closed flag alone; removing twice is removing once, and
    removing a connection that is not tracked leaves the registry as it
    was. *)
Theorem Remove_forgets_one_connection s conn :
  Registry.members (Registry.Remove conn s) = Registry.members s ∖ {[conn]}
  ∧ Registry.isClosed (Registry.Remove conn s) = Registry.isClosed s
  ∧ Registry.Remove conn (Registry.Remove conn s) = Registry.Remove conn s
  ∧ (conn ∉ Registry.members s → Registry.Remove conn s = s).
Proof.
  split_and!; [apply Remove_members | done | |].
  - unfold Registry.Remove. cbn. f_equal.
    destruct (Registry.conns s) as [m|]; cbn; [|done].
    by rewrite delete_delete_eq.
  - intros Hnot. destruct s as [closed [m|]]; unfold Registry.Remove; cbn;
      [|done].
    f_equal. f_equal. apply delete_id.
    by eapply (not_member_lookup {| Registry.isClosed := closed;
                                    Registry.conns := Some m |}).
Qed.

(** Registering a connection and removing it again, as a dialer does around
    a connect: the membership is the one before without the connection, so
    the one before when the connection was not tracked, and the closed flag
    is as before.  On a closed registry [Add] returns false and changes
    nothing, so the two calls do what [Remove] alone does: a connection the
    closed registry tracks is taken out. *)
Theorem Add_then_Remove s conn :
  Registry.members (Registry.Remove conn (Registry.Add conn s).2)
  = Registry.members s ∖ {[conn]}
  ∧ Registry.isClosed (Registry.Remove conn (Registry.Add conn s).2)
    = Registry.isClosed s
  ∧ (conn ∉ Registry.members s →
     Registry.members (Registry.Remove conn (Registry.Add conn s).2)
     = Registry.members s)
  ∧ (Registry.isClosed s = true →
     (Registry.Add conn s).1 = false
     ∧ Registry.Remove conn (Registry.Add conn s).2 = Registry.Remove conn s).
Proof.
  assert (Registry.members (Registry.Remove conn (Registry.Add conn s).2)
          = Registry.members s ∖ {[conn]}) as Hm.
  { rewrite Remove_members. destruct (Registry.isClosed s) eqn:Hc.
    - by rewrite Add_closed.
    - destruct (Add_open s conn Hc) as (_ & _ & ->).
      apply set_eq. intros x.
      rewrite !elem_of_difference, elem_of_union, elem_of_singleton.
      tauto. }
  split_and!; [done| | |].
  - destruct (Registry.isClosed s) eqn:Hc.
    + by rewrite Add_closed.
    + by destruct (Add_open s conn Hc) as (_ & ? & _).
  - intros Hnot. rewrite Hm. apply set_eq. intros x.
    rewrite elem_of_difference, elem_of_singleton.
    split; [tauto|]. intros Hx. split; [done|]. by intros ->.
  - intros Hc. by rewrite Add_closed.
Qed.

(** Adding a connection twice is adding it once, with the same result; and
    two connections added in either order give the same registry. *)
Theorem Add_idempotent_and_commutes s conn1 conn2 :
  Registry.Add conn1 (Registry.Add conn1 s).2 = Registry.Add conn1 s
  ∧ (Registry.Add conn2 (Registry.Add conn1 s).2).2
    = (Registry.Add conn1 (Registry.Add conn2 s).2).2.
Proof.
  unfold Registry.Add. destruct (Registry.isClosed s) eqn:Hc; cbn.
  - by rewrite Hc.
  - split.
    + by rewrite insert_insert_eq.
    + f_equal. f_equal. destruct (decide (conn1 = conn2)) as [->|Hne]; [done|].
      by rewrite insert_insert_ne.
Qed.

End registry_more.

(** ** The registry over whole histories *)

Section registry_histories.

Context {Conn : Type} `{Countable Conn} {error : Type}.
Variable conn_Close : Conn → option error.

Implicit Types (s : @Registry.Conns Conn _ _) (conn : Conn).
Implicit Types (h : list (@Registry.call Conn * Registry.retval)).

Lemma Close_count_app conn (t t' : list (@Registry.event Conn)) :
  Registry.Close_count conn (t ++ t')
  = (Registry.Close_count conn t + Registry.Close_count conn t')%nat.
Proof. unfold Registry.Close_count. by rewrite filter_app, length_app. Qed.

Lemma successful_Adds_cons conn cr h :
  History.successful_Adds conn (cr :: h)
  = ((if History.is_successful_Add conn cr then 1 else 0)
     + History.successful_Adds conn h)%nat.
Proof.
  unfold History.successful_Adds. rewrite filter_cons.
  destruct (History.is_successful_Add conn cr) eqn:Hs.
  - by rewrite decide_True.
  - by rewrite decide_False.
Qed.

Lemma tracked_empty conn closed :
  History.tracked conn
    {| Registry.isClosed := closed; Registry.conns := Some ∅ |} = 0%nat.
Proof.
  unfold History.tracked. rewrite decide_False; [done|].
  unfold Registry.members. cbn. rewrite dom_empty_L. apply not_elem_of_empty.
Qed.

Lemma tracked_Reset conn s : History.tracked conn (Registry.Reset s) = 0%nat.
Proof. apply tracked_empty. Qed.

(** One call: the closes it makes and the tracking it leaves are paid for
    by the tracking before it and by the registration it makes. *)
Lemma step_Close_budget s c t r s' conn :
  Registry.step conn_Close s c t r s' →
  (Registry.Close_count conn t + History.tracked conn s'
   ≤ History.tracked conn s
     + (if History.is_successful_Add conn (c, r) then 1 else 0))%nat.
Proof.
  intros [s0|s0 conn0|s0 conn0|s0 ks t0 s1 Hord Hrun].
  - rewrite tracked_Reset. cbn. lia.
  - change (Registry.Close_count conn []) with 0%nat.
    destruct (Registry.isClosed s0) eqn:Hc.
    + rewrite Add_closed by done. cbn. lia.
    + destruct (Add_open s0 conn0 Hc) as (Hr & _ & Hm).
      rewrite Hr. unfold History.tracked. rewrite Hm. cbn.
      destruct (decide (conn0 = conn)) as [->|Hne].
      * rewrite bool_decide_eq_true_2 by done. repeat case_decide; lia.
      * rewrite bool_decide_eq_false_2 by done.
        destruct (decide (conn ∈ Registry.members s0)) as [Hin|Hin].
        -- case_decide; lia.
        -- rewrite decide_False; [lia|].
           rewrite elem_of_union, elem_of_singleton. intros [?|?]; by simplify_eq.
  - change (Registry.Close_count conn []) with 0%nat.
    unfold History.tracked. rewrite Remove_members. cbn.
    destruct (decide (conn ∈ Registry.members s0)) as [Hin|Hin].
    + case_decide; lia.
    + rewrite decide_False; [lia|]. rewrite elem_of_difference. tauto.
  - rewrite CloseAll_along_run in Hrun. simplify_eq.
    rewrite (Close_count_range s0 ks conn Hord).
    rewrite (tracked_empty conn true).
    unfold History.tracked. case_decide; lia.
Qed.

(** Over every history, a connection is closed at most once for each time
    it was registered (an [Add] of it that returned true), counting one more
    when it was tracked at the start and one less when it is still tracked at
    the end: no connection is closed twice for one registration, and none
    that was never registered. *)
Theorem no_Close_without_registration s h t s' conn :
  Registry.steps conn_Close s h t s' →
  (Registry.Close_count conn t + History.tracked conn s'
   ≤ History.tracked conn s + History.successful_Adds conn h)%nat.
Proof.
  induction 1 as [s|s c t r s1 h t' s2 Hstep Hsteps IH].
  - change (Registry.Close_count conn []) with 0%nat.
    change (History.successful_Adds conn []) with 0%nat. lia.
  - rewrite Close_count_app, successful_Adds_cons.
    pose proof (step_Close_budget s c t r s1 conn Hstep). lia.
Qed.


(** In every state reached from the zero value, a closed registry tracks no
    connection. *)
Theorem closed_registry_is_empty h t s :
  Registry.steps conn_Close Registry.zero h t s →
  Registry.isClosed s = true →
  Registry.members s = ∅.
Proof.
  assert (∀ s0 h t s,
            Registry.steps conn_Close s0 h t s →
            (Registry.isClosed s0 = true → Registry.members s0 = ∅) →
            Registry.isClosed s = true → Registry.members s = ∅) as Hinv.
  { clear. induction 1 as [s|s c t r s1 h t' s2 Hstep Hsteps IH]; [auto|].
    intros Hs. apply IH. clear IH Hsteps.
    destruct Hstep as [s0|s0 conn0|s0 conn0|s0 ks t0 s1 Hord Hrun].
    - done.
    - destruct (Registry.isClosed s0) eqn:Hc.
      + rewrite Add_closed by done. cbn. rewrite Hc. auto.
      + by destruct (Add_open s0 conn0 Hc) as (_ & -> & _).
    - cbn. intros Hc. rewrite Remove_members, (Hs Hc).
      apply set_eq. intros x. rewrite elem_of_difference.
      split; [by intros [?%not_elem_of_empty _] | by intros ?%not_elem_of_empty].
    - rewrite CloseAll_along_run in Hrun. simplify_eq. intros _.
      unfold Registry.members. cbn. apply dom_empty_L. }
  intros Hsteps. by apply (Hinv _ _ _ _ Hsteps).
Qed.

(** A second [CloseAll], with nothing in between, closes nothing and leaves
    the registry as the first one left it. *)
Theorem CloseAll_twice s t r s1 t' r' s2 :
  Registry.step conn_Close s Registry.CallCloseAll t r s1 →
  Registry.step conn_Close s1 Registry.CallCloseAll t' r' s2 →
  t' = [] ∧ s2 = s1.
Proof.
  intros Hfirst Hsecond.
  inversion Hfirst as [| | |s0 ks t0 s1' Hord Hrun]; subst.
  inversion Hsecond as [| | |s0' ks' t0' s2' Hord' Hrun']; subst.
  rewrite CloseAll_along_run in Hrun, Hrun'. simplify_eq.
  unfold Registry.range_order in Hord'. cbn in Hord'.
  rewrite map_to_list_empty in Hord'. apply Permutation_nil_r in Hord'.
  by subst.
Qed.

(** What [run] computes is a history of the registry. *)
Lemma serve_step c s :
  Registry.step conn_Close s c
    (History.serve conn_Close c s).1.1 (History.serve conn_Close c s).1.2
    (History.serve conn_Close c s).2.
Proof.
  destruct c as [|conn|conn|]; cbn; try constructor.
  unfold Registry.CloseAll. rewrite CloseAll_along_run. cbn.
  eapply Registry.step_CloseAll; [apply range_order_keys|].
  apply CloseAll_along_run.
Qed.

Lemma run_steps cs s :
  Registry.steps conn_Close s
    (History.run conn_Close cs s).1.1 (History.run conn_Close cs s).1.2
    (History.run conn_Close cs s).2.
Proof.
  revert s. induction cs as [|c cs IH]; intros s; [constructor|].
  cbn [History.run]. pose proof (serve_step c s) as Hstep.
  destruct (History.serve conn_Close c s) as [[t r] s1].
  specialize (IH s1). destruct (History.run conn_Close cs s1) as [[h t'] s2].
  by econstructor.
Qed.

End registry_histories.

(** ** The two scenarios *)

Lemma cancelled_history :
  Registry.steps Examples.conn_Close Registry.zero
    [(Registry.CallAdd 1%nat, Registry.RetBool true);
     (Registry.CallAdd 3%nat, Registry.RetBool true);
     (Registry.CallRemove 1%nat, Registry.RetVoid);
     (Registry.CallCloseAll, Registry.RetVoid);
     (Registry.CallAdd 2%nat, Registry.RetBool false);
     (Registry.CallCloseAll, Registry.RetVoid)]
    [Registry.EvClose 3%nat]
    {| Registry.isClosed := true; Registry.conns := Some ∅ |}.
Proof.
  exact (run_steps Examples.conn_Close Scenarios.cancelled Registry.zero).
Qed.


(** In the cancelled dial, connection 3 is registered once and closed once,
    connection 1 is registered and removed and never closed, and connection
    2, whose [Add] returned false, is never closed. *)
Lemma no_Close_without_registration_witness :
  let h := (History.run Examples.conn_Close Scenarios.cancelled
              Registry.zero).1.1 in
  let t := [@Registry.EvClose nat 3%nat] in
  let s' := {| Registry.isClosed := true; Registry.conns := Some ∅ |} in
  Registry.steps Examples.conn_Close Registry.zero h t s'
  ∧ (Registry.Close_count 3%nat t + History.tracked 3%nat s'
     ≤ History.tracked 3%nat Registry.zero + History.successful_Adds 3%nat h)%nat
  ∧ (Registry.Close_count 1%nat t + History.tracked 1%nat s'
     ≤ History.tracked 1%nat Registry.zero + History.successful_Adds 1%nat h)%nat
  ∧ (Registry.Close_count 2%nat t + History.tracked 2%nat s'
     ≤ History.tracked 2%nat Registry.zero + History.successful_Adds 2%nat h)%nat
  ∧ Registry.Close_count 3%nat t = 1%nat
  ∧ History.successful_Adds 3%nat h = 1%nat
  ∧ History.successful_Adds 2%nat h = 0%nat
  ∧ Registry.Close_count 2%nat t = 0%nat.
Proof.
  cbn zeta. split_and!; [exact cancelled_history | | | | by vm_compute..].
  - exact (no_Close_without_registration Examples.conn_Close _ _ _ _ 3%nat
             cancelled_history).
  - exact (no_Close_without_registration Examples.conn_Close _ _ _ _ 1%nat
             cancelled_history).
  - exact (no_Close_without_registration Examples.conn_Close _ _ _ _ 2%nat
             cancelled_history).
Defined.


(** The cancelled dial ends closed, and tracks nothing. *)
Lemma closed_registry_is_empty_witness :
  let s' := {| Registry.isClosed := true;
               Registry.conns := Some (∅ : gmap nat bool) |} in
  Registry.steps Examples.conn_Close Registry.zero
    (History.run Examples.conn_Close Scenarios.cancelled Registry.zero).1.1
    [Registry.EvClose 3%nat] s'
  ∧ Registry.isClosed s' = true
  ∧ Registry.members s' = ∅.
Proof.
  cbn zeta. split_and!; [exact cancelled_history | done |].
  exact (closed_registry_is_empty Examples.conn_Close _ _ _
           cancelled_history eq_refl).
Defined.

(** Two [CloseAll] in a row on the registry of connections 1 and 3: the
    second finds nothing to close. *)
Lemma CloseAll_twice_witness :
  let s1 := {| Registry.isClosed := true;
               Registry.conns := Some (∅ : gmap nat bool) |} in
  Registry.step Examples.conn_Close Examples.two_conns Registry.CallCloseAll
    [Registry.EvClose 3%nat; Registry.EvClose 1%nat] Registry.RetVoid s1
  ∧ Registry.step Examples.conn_Close s1 Registry.CallCloseAll
      [] Registry.RetVoid s1
  ∧ ([] : list (@Registry.event nat)) = [] ∧ s1 = s1.
Proof.
  cbn zeta.
  assert (Registry.step Examples.conn_Close Examples.two_conns
            Registry.CallCloseAll
            [Registry.EvClose 3%nat; Registry.EvClose 1%nat] Registry.RetVoid
            {| Registry.isClosed := true; Registry.conns := Some ∅ |})
    as Hfirst.
  { exact (serve_step Examples.conn_Close Registry.CallCloseAll
             Examples.two_conns). }
  assert (Registry.step Examples.conn_Close
            {| Registry.isClosed := true; Registry.conns := Some ∅ |}
            Registry.CallCloseAll [] Registry.RetVoid
            {| Registry.isClosed := true; Registry.conns := Some ∅ |})
    as Hsecond.
  { exact (serve_step Examples.conn_Close Registry.CallCloseAll
             {| Registry.isClosed := true; Registry.conns := Some ∅ |}). }
  split; [exact Hfirst|]. split; [exact Hsecond|].
  exact (CloseAll_twice Examples.conn_Close _ _ _ _ _ _ _ Hfirst Hsecond).
Defined.

(** ** The handshake: when it does not return *)

Section proxy_more.

Context {error : Type}.
Variable errors_New : string → error.
Variable ContextError : error → error.
Variable net_SplitHostPort : string → error + string * string.
Variable rawConn_Write : list Byte.byte → Z * option error.
Variable http_ReadResponse : list Byte.byte → error + Proxy.Response.

Local Abbreviation HttpProxyConnect :=
  (Proxy.HttpProxyConnect errors_New ContextError net_SplitHostPort
     rawConn_Write http_ReadResponse).

(** The handshake panics in one case only: the address is well formed, the
    request was written, a response was read, its status code is not 200 and
    its [Status] has no space.  In every other case it returns nil or an
    error. *)
Theorem HttpProxyConnect_panics_iff addr :
  (∃ why, Go.result (HttpProxyConnect addr) = Go.Panicked why)
  ↔ ∃ hostname port response,
      net_SplitHostPort addr = inr (hostname, port)
      ∧ (rawConn_Write (Proxy.request addr hostname)).2 = None
      ∧ http_ReadResponse (Proxy.request addr hostname) = inr response
      ∧ Proxy.StatusCode response ≠ 200
      ∧ Go.no_space (Proxy.Status response).
Proof.
  rewrite HttpProxyConnect_run.
  destruct (net_SplitHostPort addr) as [err|[hostname port]].
  { split; [by intros [? ?] | by intros (? & ? & ? & ? & _)]. }
  cbn zeta. destruct (rawConn_Write _).2 as [err|] eqn:Hw.
  { split; [by intros [? ?]|]. intros (? & ? & ? & ? & ? & _). congruence. }
  destruct (http_ReadResponse _) as [err|response] eqn:Hr.
  { split; [by intros [? ?]|]. intros (? & ? & ? & ? & ? & ? & _). congruence. }
  destruct (decide (Proxy.StatusCode response = 200)) as [H200|H200].
  { split; [by intros [? ?]|].
    intros (? & ? & ? & ? & ? & ? & ? & _). congruence. }
  pose proof (SplitN_2_second (Proxy.Status response)) as Hsecond.
  destruct (Go.strings_SplitN _ _ _ !! 1%nat) as [detail|].
  - split; [by intros [? ?]|].
    intros (h & p & r & Ha & Hw' & Hr' & _ & Hno). simplify_eq.
    destruct (proj1 Hsecond); [by eexists|].
    by replace response with r by congruence.
  - split; [|by eexists]. intros _. exists hostname, port, response.
    split_and!; [done..|].
    destruct (Go.strings_Index (Proxy.Status response) " ") eqn:Hi; [|done].
    destruct (proj2 Hsecond) as [? ?]; [|done].
    unfold Go.no_space. by rewrite Hi.
Qed.

End proxy_more.

(** ** The fetch: success, the body, the request, panics *)

(** Membership in a trace that is written out. *)
Ltac walk H :=
  cbn in H;
  repeat (apply elem_of_cons in H as [H|H]; [try discriminate H|]);
  try (by apply elem_of_nil in H).

Section fetch_more.

Context {error : Type}.
Variable errors_New : string → error.
Variable ContextError : error → error.
Context {ConnsRef DeviceBinder Dialer Body ServerEntry : Type}.
Context {rsa_PublicKey other_PublicKey : Type}.
Variable base64_DecodeString : string → error + list Byte.byte.
Variable x509_ParsePKIXPublicKey :
  list Byte.byte → error + @Fetch.PublicKey rsa_PublicKey other_PublicKey.
Variable sha256_Sum : list Byte.byte → list Byte.byte.
Variable rsa_VerifyPKCS1v15 :
  rsa_PublicKey → Fetch.crypto_Hash → list Byte.byte → list Byte.byte →
  option error.
Variable http_Client_Get : @Fetch.http_Client Dialer → string → error + Body.
Variable ioutil_ReadAll : Body → error + list Byte.byte.
Variable json_Unmarshal : list Byte.byte → error + option Fetch.RemoteServerList.
Variable NewTCPDialer : @Fetch.DialConfig ConnsRef DeviceBinder → Dialer.
Variable FETCH_REMOTE_SERVER_LIST_TIMEOUT : Z.
Variable DecodeAndValidateServerEntryList : string → error + list ServerEntry.
Variable StoreServerEntries : list ServerEntry → bool → option error.

Local Abbreviation event := (@Fetch.event Dialer Body ServerEntry).

Local Abbreviation validate :=
  (@Fetch.validateRemoteServerList error errors_New ContextError
     DeviceBinder Dialer Body ServerEntry rsa_PublicKey other_PublicKey
     base64_DecodeString x509_ParsePKIXPublicKey sha256_Sum rsa_VerifyPKCS1v15).

Local Abbreviation Fetch_ :=
  (Fetch.FetchRemoteServerList errors_New ContextError
     base64_DecodeString x509_ParsePKIXPublicKey sha256_Sum rsa_VerifyPKCS1v15
     http_Client_Get ioutil_ReadAll json_Unmarshal NewTCPDialer
     FETCH_REMOTE_SERVER_LIST_TIMEOUT
     DecodeAndValidateServerEntryList StoreServerEntries).

Local Abbreviation client_for :=
  (Fetch.httpClient_for NewTCPDialer FETCH_REMOTE_SERVER_LIST_TIMEOUT).

Local Abbreviation signature_verifies :=
  (Fetch.signature_verifies (DeviceBinder:=DeviceBinder) base64_DecodeString
     x509_ParsePKIXPublicKey sha256_Sum rsa_VerifyPKCS1v15).

Local Abbreviation fetched :=
  (Fetch.fetched http_Client_Get ioutil_ReadAll json_Unmarshal NewTCPDialer
     FETCH_REMOTE_SERVER_LIST_TIMEOUT).

Implicit Types (config : @Fetch.Config DeviceBinder)
  (r : Fetch.RemoteServerList) (p : option Fetch.RemoteServerList).

(** The facts about the validation, at the variables of this section. *)
Local Abbreviation validate_iff :=
  (validate_succeeds_iff errors_New ContextError (Dialer:=Dialer)
     (Body:=Body) (ServerEntry:=ServerEntry) base64_DecodeString
     x509_ParsePKIXPublicKey sha256_Sum rsa_VerifyPKCS1v15).

Local Abbreviation key_is_RSA :=
  (Fetch.key_is_RSA (DeviceBinder:=DeviceBinder) base64_DecodeString
     x509_ParsePKIXPublicKey).

(** The validation of a nil pointer: the error of the key when the key is
    not an RSA key, a panic otherwise. *)
Lemma validate_nil_run config :
  (key_is_RSA config
   ∧ validate config None
     = ([], Go.Panicked "invalid memory address or nil pointer dereference"))
  ∨ (¬ key_is_RSA config
     ∧ ∃ err, validate config None = ([], Go.Done (Some (ContextError err)))).
Proof.
  unfold Fetch.key_is_RSA, Fetch.validateRemoteServerList.
  destruct (base64_DecodeString _) as [e|der].
  { right. split; [by intros (? & ? & ? & _)|by eexists]. }
  destruct (x509_ParsePKIXPublicKey der) as [e|[k|k]] eqn:Hk.
  - right. split; [|by eexists]. intros (? & ? & ? & ?). congruence.
  - left. split; [by exists der, k|done].
  - right. split; [|by eexists]. intros (? & ? & ? & ?). congruence.
Qed.

(** The key is looked at before the record: when the configured key does
    not decode, does not parse or is not an RSA key, every pointer, the nil
    one included, gets the same contextualized error, and nothing
    panics. *)
Theorem validateRemoteServerList_checks_key_first config p1 p2 :
  ¬ key_is_RSA config →
  validate config p1 = validate config p2
  ∧ ∃ err, validate config p1 = ([], Go.Done (Some (ContextError err))).
Proof.
  unfold Fetch.key_is_RSA, Fetch.validateRemoteServerList. intros Hkey.
  destruct (base64_DecodeString _) as [e|der]; [split; [done|by eexists]|].
  destruct (x509_ParsePKIXPublicKey der) as [e|[k|k]] eqn:Hk;
    [split; [done|by eexists]| |split; [done|by eexists]].
  destruct Hkey. by exists der, k.
Qed.

(** The fetch returns nil exactly when a record was fetched, its signature
    verifies, its payload decodes and the entries are stored. *)
Theorem FetchRemoteServerList_succeeds_iff config pendingConns :
  Go.result (Fetch_ config pendingConns) = Go.Done None
  ↔ ∃ r serverEntries,
      fetched config pendingConns (Some r)
      ∧ signature_verifies config r
      ∧ DecodeAndValidateServerEntryList (Fetch.Data r) = inr serverEntries
      ∧ StoreServerEntries serverEntries true = None.
Proof.
  rewrite FetchRemoteServerList_run. cbn zeta. unfold Fetch.fetched.
  destruct (http_Client_Get _ _) as [e|body] eqn:Hg.
  { split; [done|]. by intros (? & ? & (? & ? & ? & _) & _). }
  destruct (ioutil_ReadAll body) as [e|b] eqn:Hb.
  { split; [done|]. intros (? & ? & (? & ? & ? & ? & _) & _). congruence. }
  destruct (json_Unmarshal b) as [e|p] eqn:Hp.
  { split; [done|]. intros (? & ? & (? & ? & ? & ? & ?) & _). congruence. }
  assert (∀ r, (∃ body0 b0, inr (A:=error) body = inr body0
                  ∧ ioutil_ReadAll body0 = inr b0
                  ∧ json_Unmarshal b0 = inr (Some r)) → p = Some r) as Hsame.
  { intros r (? & ? & ? & ? & ?). congruence. }
  pose proof (validate_run errors_New ContextError base64_DecodeString
                x509_ParsePKIXPublicKey sha256_Sum rsa_VerifyPKCS1v15
                (Dialer:=Dialer) (Body:=Body) (ServerEntry:=ServerEntry)
                config p) as Hrun.
  destruct (Go.result (validate config p)) as [[e|]|why] eqn:Hv.
  - split; [done|]. intros (r & ? & ->%Hsame & Hs & _).
    apply validate_iff in Hs. rewrite Hs in Hv. done.
  - destruct p as [r|].
    2:{ by destruct (validate_nil errors_New ContextError base64_DecodeString
                       x509_ParsePKIXPublicKey sha256_Sum rsa_VerifyPKCS1v15
                       (Dialer:=Dialer) (Body:=Body) (ServerEntry:=ServerEntry)
                       config). }
    apply validate_iff in Hrun.
    destruct (DecodeAndValidateServerEntryList (Fetch.Data r))
      as [e|serverEntries] eqn:Hd.
    + split; [done|]. intros (r' & ? & Hr'%Hsame & _ & ? & _). congruence.
    + destruct (StoreServerEntries serverEntries true) as [e|] eqn:Hs.
      * split; [done|]. intros (r' & es & Hr'%Hsame & _ & ? & ?). congruence.
      * split; [|done]. intros _. exists r, serverEntries.
        split_and!; [by exists body, b|done..].
  - split; [done|]. intros (r & ? & ->%Hsame & Hs & _).
    apply validate_iff in Hs. rewrite Hs in Hv. done.
Qed.

(** The body of the response is closed on every path that received a
    response, an error and a panic included: once, as the last event of the
    run.  When the request failed there is no body and none is closed. *)
Theorem FetchRemoteServerList_closes_body config pendingConns :
  match http_Client_Get (client_for config pendingConns)
          (Fetch.RemoteServerListUrl config) with
  | inl _ =>
      ∀ body, Fetch.EvBodyClose body ∉ Go.trace (Fetch_ config pendingConns)
  | inr body =>
      ∃ t, Go.trace (Fetch_ config pendingConns)
           = t ++ [Fetch.EvBodyClose body]
           ∧ ∀ body', Fetch.EvBodyClose body' ∉ t
  end.
Proof.
  rewrite FetchRemoteServerList_run. cbn zeta.
  destruct (http_Client_Get _ _) as [e|body] eqn:Hg.
  { intros body Hin. walk Hin. }
  destruct (ioutil_ReadAll body) as [e|b].
  { eexists [_; _; _]. split; [done|]. intros body' Hin. walk Hin. }
  destruct (json_Unmarshal b) as [e|p].
  { eexists [_; _; _]. split; [done|]. intros body' Hin. walk Hin. }
  destruct (Go.result (validate config p)) as [[e|]|why].
  - eexists [_; _; _]. split; [done|]. intros body' Hin. walk Hin.
  - destruct p as [r|].
    2:{ eexists [_; _; _]. split; [done|]. intros body' Hin. walk Hin. }
    destruct (DecodeAndValidateServerEntryList (Fetch.Data r)) as [e|es].
    + eexists [_; _; _; _]. split; [done|]. intros body' Hin. walk Hin.
    + eexists [_; _; _; _; _]. split; [done|]. intros body' Hin. walk Hin.
  - eexists [_; _; _]. split; [done|]. intros body' Hin. walk Hin.
Qed.

(** Every run starts with the info notice and one GET of the configured
    URL, through a client that has the fetch timeout and the dialer made for
    the proxy address, the pending connections and the device binder of the
    configuration, with no timeouts of its own; the run makes no other
    request and logs no other notice, so no alert. *)
Theorem FetchRemoteServerList_one_request config pendingConns :
  ∃ rest,
    Go.trace (Fetch_ config pendingConns)
    = Fetch.EvNotice (Go.NoticeInfo "fetching remote server list")
      :: Fetch.EvGet
           {| Fetch.Timeout := FETCH_REMOTE_SERVER_LIST_TIMEOUT;
              Fetch.Transport :=
                {| Fetch.Dial :=
                     NewTCPDialer
                       {| Fetch.dc_UpstreamHttpProxyAddress :=
                            Fetch.UpstreamHttpProxyAddress config;
                          Fetch.dc_ConnectTimeout := 0;
                          Fetch.dc_ReadTimeout := 0;
                          Fetch.dc_WriteTimeout := 0;
                          Fetch.dc_PendingConns := pendingConns;
                          Fetch.dc_BindToDeviceProvider :=
                            Fetch.BindToDeviceProvider config;
                          Fetch.dc_BindToDeviceDnsServer :=
                            Fetch.BindToDeviceDnsServer config |} |} |}
           (Fetch.RemoteServerListUrl config)
      :: rest
    ∧ (∀ client url, Fetch.EvGet client url ∉ rest)
    ∧ (∀ n, Fetch.EvNotice n ∉ rest).
Proof.
  rewrite FetchRemoteServerList_run. cbn zeta.
  destruct (http_Client_Get _ _) as [e|body].
  { exists []. split_and!; [done|intros ? ? Hin; walk Hin|intros ? Hin; walk Hin]. }
  destruct (ioutil_ReadAll body) as [e|b].
  { eexists. split_and!; [done|intros ? ? Hin; walk Hin|intros ? Hin; walk Hin]. }
  destruct (json_Unmarshal b) as [e|p].
  { eexists. split_and!; [done|intros ? ? Hin; walk Hin|intros ? Hin; walk Hin]. }
  destruct (Go.result (validate config p)) as [[e|]|why].
  - eexists. split_and!; [done|intros ? ? Hin; walk Hin|intros ? Hin; walk Hin].
  - destruct p as [r|].
    2:{ eexists.
        split_and!; [done|intros ? ? Hin; walk Hin|intros ? Hin; walk Hin]. }
    destruct (DecodeAndValidateServerEntryList (Fetch.Data r)) as [e|es].
    + eexists.
      split_and!; [done|intros ? ? Hin; walk Hin|intros ? Hin; walk Hin].
    + eexists.
      split_and!; [done|intros ? ? Hin; walk Hin|intros ? Hin; walk Hin].
  - eexists. split_and!; [done|intros ? ? Hin; walk Hin|intros ? Hin; walk Hin].
Qed.

(** The fetch panics in one case only: the body unmarshals without error
    to a nil pointer (the JSON value [null]) while the configured key is an
    RSA key; the validation then reads the signature through the nil
    pointer. *)
Theorem FetchRemoteServerList_panics_iff config pendingConns :
  (∃ why, Go.result (Fetch_ config pendingConns) = Go.Panicked why)
  ↔ fetched config pendingConns None ∧ key_is_RSA config.
Proof.
  rewrite FetchRemoteServerList_run. cbn zeta. unfold Fetch.fetched.
  destruct (http_Client_Get _ _) as [e|body] eqn:Hg.
  { split; [by intros [? ?]|]. by intros [(? & ? & ? & _) _]. }
  destruct (ioutil_ReadAll body) as [e|b] eqn:Hb.
  { split; [by intros [? ?]|]. intros [(? & ? & ? & ? & _) _]. congruence. }
  destruct (json_Unmarshal b) as [e|p] eqn:Hp.
  { split; [by intros [? ?]|]. intros [(? & ? & ? & ? & ?) _]. congruence. }
  destruct p as [r|].
  - destruct (validate_Some_returns errors_New ContextError
                base64_DecodeString x509_ParsePKIXPublicKey sha256_Sum
                rsa_VerifyPKCS1v15 (Dialer:=Dialer) (Body:=Body)
                (ServerEntry:=ServerEntry) config r) as [err ->].
    cbn. split.
    + destruct err as [e|]; [by intros [? ?]|].
      destruct (DecodeAndValidateServerEntryList _) as [?|es];
        [by intros [? ?]|].
      destruct (StoreServerEntries es true); by intros [? ?].
    + intros [(? & ? & ? & ? & ?) _]. congruence.
  - destruct (validate_nil_run config) as [[Hkey ->]|[Hkey [err ->]]]; cbn.
    + split; [|by eexists]. intros _. split; [by exists body, b|done].
    + split; [by intros [? ?]|]. by intros [_ ?].
Qed.

(** After a verified signature: when the payload does not decode, the fetch
    returns the contextualized error of the decoder and nothing is stored;
    when the entries decode, the fetch returns what the store returns,
    contextualized when it is an error. *)
Theorem FetchRemoteServerList_late_errors config pendingConns r :
  fetched config pendingConns (Some r) →
  signature_verifies config r →
  match DecodeAndValidateServerEntryList (Fetch.Data r) with
  | inl err =>
      Go.result (Fetch_ config pendingConns)
      = Go.Done (Some (ContextError err))
      ∧ ∀ serverEntries replace,
          Fetch.EvStore serverEntries replace
          ∉ Go.trace (Fetch_ config pendingConns)
  | inr serverEntries =>
      Go.result (Fetch_ config pendingConns)
      = Go.Done (ContextError <$> StoreServerEntries serverEntries true)
      ∧ Fetch.EvStore serverEntries true
        ∈ Go.trace (Fetch_ config pendingConns)
  end.
Proof.
  intros (body & b & Hg & Hb & Hp) Hs%validate_iff.
  rewrite FetchRemoteServerList_run. cbn zeta.
  rewrite Hg, Hb, Hp, Hs. cbn [Go.result snd].
  destruct (DecodeAndValidateServerEntryList (Fetch.Data r)) as [e|es].
  - split; [done|]. intros ? ? Hin. walk Hin.
  - split; [by destruct (StoreServerEntries es true)|].
    cbn. do 4 apply list_elem_of_further. apply list_elem_of_here.
Qed.

End fetch_more.

(** ** The fetch on a rejected payload and on a key that is not an RSA key *)

Lemma FetchRemoteServerList_late_errors_witness :
  Fetch.fetched (Examples.http_Client_Get "signed") Examples.ioutil_ReadAll
    Examples.json_Unmarshal (λ _, tt) 30000000000
    (Examples.config "rsa:KEY") tt (Some Examples.signed_list)
  ∧ Fetch.signature_verifies Examples.base64_DecodeString
      Examples.x509_ParsePKIXPublicKey Examples.sha256_Sum
      Examples.rsa_VerifyPKCS1v15 (Examples.config "rsa:KEY")
      Examples.signed_list
  ∧ Go.result Scenarios.FetchRemoteServerList_rejecting
    = Go.Done (Some (Examples.ContextError "invalid server entry"))
  ∧ ∀ serverEntries replace,
      Fetch.EvStore serverEntries replace
      ∉ Go.trace Scenarios.FetchRemoteServerList_rejecting.
Proof.
  assert (Fetch.fetched (Examples.http_Client_Get "signed")
            Examples.ioutil_ReadAll Examples.json_Unmarshal (λ _, tt)
            30000000000 (Examples.config "rsa:KEY") tt
            (Some Examples.signed_list)) as Hf.
  { exists "signed", (Go.bytes "signed"). split_and!; by vm_compute. }
  assert (Fetch.signature_verifies Examples.base64_DecodeString
            Examples.x509_ParsePKIXPublicKey Examples.sha256_Sum
            Examples.rsa_VerifyPKCS1v15 (Examples.config "rsa:KEY")
            Examples.signed_list) as Hs.
  { exists (Go.bytes "rsa:KEY"), (Go.bytes "KEY"), (Go.bytes "KEYentries").
    split_and!; by vm_compute. }
  split; [exact Hf|]. split; [exact Hs|].
  exact (FetchRemoteServerList_late_errors Examples.errors_New
           Examples.ContextError Examples.base64_DecodeString
           Examples.x509_ParsePKIXPublicKey Examples.sha256_Sum
           Examples.rsa_VerifyPKCS1v15 (Examples.http_Client_Get "signed")
           Examples.ioutil_ReadAll Examples.json_Unmarshal (λ _, tt)
           30000000000 Scenarios.reject_entries Examples.StoreServerEntries
           (Examples.config "rsa:KEY") tt Examples.signed_list Hf Hs).
Defined.

Lemma validateRemoteServerList_checks_key_first_witness :
  (Fetch.key_is_RSA Examples.base64_DecodeString
     Examples.x509_ParsePKIXPublicKey (Examples.config "ec:KEY") → False)
  ∧ Examples.validateRemoteServerList_with "ec:KEY" (Some Examples.signed_list)
    = Examples.validateRemoteServerList_with "ec:KEY" None
  ∧ ∃ err,
      Examples.validateRemoteServerList_with "ec:KEY"
        (Some Examples.signed_list)
      = ([], Go.Done (Some (Examples.ContextError err))).
Proof.
  assert (¬ Fetch.key_is_RSA Examples.base64_DecodeString
              Examples.x509_ParsePKIXPublicKey (Examples.config "ec:KEY"))
    as Hkey.
  { intros (der & k & Hd & Hk). vm_compute in Hd.
    injection Hd as <-. vm_compute in Hk. discriminate Hk. }
  split; [exact Hkey|].
  exact (validateRemoteServerList_checks_key_first Examples.errors_New
           Examples.ContextError (Dialer:=unit) (Body:=string)
           (ServerEntry:=string) Examples.base64_DecodeString
           Examples.x509_ParsePKIXPublicKey Examples.sha256_Sum
           Examples.rsa_VerifyPKCS1v15 (Examples.config "ec:KEY")
           (Some Examples.signed_list) None Hkey).
Defined.

(** ** [Relay] *)

Lemma shuffle_Permutation {A} (l1 l2 l : list A) :
  Relaying.shuffle l1 l2 l → l ≡ₚ l1 ++ l2.
Proof.
  induction 1 as [|x l1 l2 l _ IH|x l1 l2 l _ IH]; [done| |].
  - cbn. by rewrite IH.
  - rewrite IH. by rewrite <- Permutation_middle.
Qed.

Lemma shuffle_sequential {A} (l1 l2 : list A) :
  Relaying.shuffle l1 l2 (l1 ++ l2).
Proof.
  induction l1 as [|x l1 IH]; cbn.
  - induction l2; by constructor.
  - by constructor.
Qed.

Section relay_facts.

Context {Conn error : Type}.
Variable ContextError : error → error.
Variable error_Error : error → string.
Variable Copy_to_local : Z * option error.
Variable Copy_to_remote : Z * option error.

Local Abbreviation Relay :=
  (Relaying.Relay (Conn:=Conn) ContextError error_Error
     Copy_to_local Copy_to_remote).

Lemma copy_side_run (dst src : Conn) copied :
  Relaying.copy_side ContextError error_Error dst src copied
  = (Relaying.EvCopy dst src
       :: match copied.2 with
          | Some err =>
              [Relaying.EvNotice
                 (Relaying.alert_Relay_failed ContextError error_Error err)]
          | None => []
          end,
     Go.Done tt).
Proof.
  unfold Relaying.copy_side. destruct copied as [n [err|]]; reflexivity.
Qed.

(** [Relay] has runs, and in every run both directions are copied, once
    each, whatever the other direction returns; the alerts of the run are
    one [Relay failed] alert for each direction whose copy returned an
    error, carrying that error contextualized; and the run holds no other
    event.  Nothing is returned to the caller. *)
Theorem Relay_copies_both_and_logs_failures localConn remoteConn :
  (∃ t, Relay localConn remoteConn t)
  ∧ ∀ t, Relay localConn remoteConn t →
      Relaying.copies t
        ≡ₚ [(localConn, remoteConn); (remoteConn, localConn)]
      ∧ Relaying.alerts t
          ≡ₚ Relaying.alert_of ContextError error_Error Copy_to_local
             ++ Relaying.alert_of ContextError error_Error Copy_to_remote
      ∧ length t = (2 + length (Relaying.alerts t))%nat.
Proof.
  unfold Relaying.Relay, Relaying.goroutine, Relaying.caller.
  rewrite !copy_side_run. cbn [Go.trace Go.result fst snd]. split.
  { eexists. split_and!; [apply shuffle_sequential|done..]. }
  intros t (Hsh%shuffle_Permutation & _ & _).
  unfold Relaying.copies, Relaying.alerts, Relaying.alert_of.
  rewrite !Hsh.
  destruct Copy_to_local as [n1 [e1|]], Copy_to_remote as [n2 [e2|]];
    cbn; split_and!; done.
Qed.

End relay_facts.

(** A relay whose copy to the local side fails: the caller's copy runs
    first here, the failure of the goroutine is logged, and nothing else. *)
Lemma Relay_copies_both_and_logs_failures_witness :
  let t :=
    [Relaying.EvCopy 2%nat 1%nat; Relaying.EvCopy 1%nat 2%nat;
     Relaying.EvNotice
       (Go.NoticeAlert "Relay failed: psiphon: connection reset")] in
  Relaying.Relay Examples.ContextError id Scenarios.Copy_to_local
    Scenarios.Copy_to_remote 1%nat 2%nat t
  ∧ Relaying.copies t ≡ₚ [(1%nat, 2%nat); (2%nat, 1%nat)]
  ∧ Relaying.alerts t = ["Relay failed: psiphon: connection reset"]
  ∧ length t = 3%nat.
Proof.
  cbn zeta.
  assert (Relaying.Relay Examples.ContextError id Scenarios.Copy_to_local
            Scenarios.Copy_to_remote 1%nat 2%nat
            [Relaying.EvCopy 2%nat 1%nat; Relaying.EvCopy 1%nat 2%nat;
             Relaying.EvNotice
               (Go.NoticeAlert "Relay failed: psiphon: connection reset")])
    as Hrun.
  { split_and!; [|done..]. cbn.
    apply Relaying.shuffle_right, Relaying.shuffle_left,
      Relaying.shuffle_left, Relaying.shuffle_nil. }
  split; [exact Hrun|].
  destruct (Relay_copies_both_and_logs_failures Examples.ContextError id
              Scenarios.Copy_to_local Scenarios.Copy_to_remote 1%nat 2%nat)
    as [_ Hall].
  destruct (Hall _ Hrun) as (Hc & _ & _).
  split_and!; [exact Hc|done..].
Defined.

(** ** The fetch on the body [null] *)

(** C1 at the body [null] with an RSA key configured: the HTTP fetch, the
    read of the body and the JSON deserialization return no error, the
    pointer is nil, and the validation fails by a panic when it reads the
    signature; the fetch returns neither nil nor a contextualized error.
    Nothing is handed on in that run. *)
Theorem FetchRemoteServerList_null_returns_no_error :
  let run := Examples.FetchRemoteServerList_from "null" "rsa:KEY" in
  Examples.json_Unmarshal (Go.bytes "null") = inr None
  ∧ Examples.validateRemoteServerList_with "rsa:KEY" None
    = ([], Go.Panicked "invalid memory address or nil pointer dereference")
  ∧ Go.result run
    = Go.Panicked "invalid memory address or nil pointer dereference"
  ∧ (∀ err : option string, Go.result run ≠ Go.Done err)
  ∧ Examples.handoffs (Go.trace run) = [].
Proof.
  cbn zeta. split_and!; [by vm_compute..| |by vm_compute].
  intros err. by vm_compute.
Qed.
